(** * VelocityDRIVE-SP web gateway: the [run_mup1cc] request handler

    A shallow embedding of the POST /api/run-mup1cc handler found in
    [web/main.py] and in its copy [support/docker/main.py], together with
    the library calls it makes (pathlib, tempfile, subprocess, yaml), the
    way FastAPI serves what it returns, and the properties of the handler
    proved over that embedding.

    Conventions of the model.
    - A Python [str] is the list of its Unicode code points; decoded
      output and exception messages are taken free of lone surrogates, so
      that a [JSONResponse] built from them always renders.
    - The handler is a computation in a state-and-exception monad.  The
      state holds the file system, the handler's local variable
      [temp_path], and the trace of the library calls made so far.
    - Everything the handler cannot control is an oracle of the record
      [Env]: whether a file operation fails, which random name tempfile
      picks, how the external process behaves, how its output decodes,
      what the YAML decoder answers on a non-empty stream, whether
      FastAPI can serialise a returned value.  The theorems quantify over
      every [Env].
    - Exceptions are the instances of Python's [Exception], the class the
      handler's [except] clauses name; signals deriving from
      [BaseException] only (KeyboardInterrupt, SystemExit) are outside
      the model.
    - The file system is a finite map from paths to contents, which the
      external process may change at will.  Paths are POSIX paths, and a
      [Path] is identified with its string, tempfile's names being
      absolute and normalised.
    - Time is data: the external process exits after so many seconds or
      never, and [subprocess.run] compares that with its timeout. *)

From Stdlib Require Import QArith.
From Stdlib Require Import SpecFloat.
From stdpp Require Import gmap strings list fin_maps.

Local Open Scope Z_scope.
Local Open Scope list_scope.

(** ** Text *)

(** A character is a Unicode code point, a Python [str] a list of them. *)
Definition char : Type := N.
Definition str : Type := list char.
Definition bytes : Type := list Byte.byte.

(** A source literal, character by character. *)
Definition lit (s : string) : str :=
  map Ascii.N_of_ascii (String.list_ascii_of_string s).

(** Python's [x or y] on strings: the empty string is falsy. *)
Definition str_or (s t : str) : str :=
  match s with
  | [] => t
  | _ :: _ => s
  end.

(** [str.isspace] for one character, the table behind [str.strip()]
    (CPython's _PyUnicode_IsWhitespace). *)
Definition isspace (c : char) : bool :=
  ((9 <=? c) && (c <=? 13) || (28 <=? c) && (c <=? 32)
   || (c =? 133) || (c =? 160) || (c =? 5760)
   || (8192 <=? c) && (c <=? 8202)
   || (c =? 8232) || (c =? 8233) || (c =? 8239) || (c =? 8287)
   || (c =? 12288))%N.

Fixpoint lstrip (s : str) : str :=
  match s with
  | [] => []
  | c :: s' => if isspace c then lstrip s' else s
  end.

Definition rstrip (s : str) : str := rev (lstrip (rev s)).

(** [s.strip()] *)
Definition strip (s : str) : str := rstrip (lstrip s).

(** ** pathlib: the suffix of a POSIX path *)

Definition slash : char := 47%N.
Definition dot : char := 46%N.

(** [s.split(sep)] for a one-character separator. *)
Fixpoint split_on (sep : char) (s : str) : list str :=
  match s with
  | [] => [[]]
  | c :: s' =>
      if (c =? sep)%N then [] :: split_on sep s'
      else match split_on sep s' with
           | h :: t => (c :: h) :: t
           | [] => [[c]]
           end
  end.

(** The components pathlib keeps: [x for x in rel.split('/') if x and x != '.']. *)
Definition path_parts (s : str) : list str :=
  filter (fun x => x ≠ [] ∧ x ≠ [dot]) (split_on slash s).

(** [PurePath.name]: the final component, or the empty string. *)
Definition path_name (s : str) : str := List.last (path_parts s) [].

(** [name.rfind('.')], with [None] for Python's -1. *)
Fixpoint rfind (c : char) (s : str) : option nat :=
  match s with
  | [] => None
  | x :: s' =>
      match rfind c s' with
      | Some i => Some (S i)
      | None => if (x =? c)%N then Some O else None
      end
  end.

(** [PurePath.suffix] (Python 3.10 to 3.13):
    [i = name.rfind('.')]; [name[i:]] if [0 < i < len(name) - 1], else ['']. *)
Definition path_suffix (s : str) : str :=
  let name := path_name s in
  match rfind dot name with
  | Some i =>
      if (0 <? Z.of_nat i) && (Z.of_nat i <? Z.of_nat (length name) - 1)
      then drop i name else []
  | None => []
  end.

(** [os.path.join(a, b)] on POSIX. *)
Definition path_join (a b : str) : str :=
  if match b with c :: _ => (c =? slash)%N | [] => false end then b
  else if match a with [] => true | _ :: _ => (List.last a dot =? slash)%N end
       then a ++ b
       else a ++ slash :: b.


(** ** Values, requests and responses *)

(** What [yaml.safe_load] can build, and what a response body carries. *)
Local Unset Elimination Schemes.
Inductive pyobj : Type :=
| PyNone
| PyBool (b : bool)
| PyInt (z : Z)
| PyFloat (f : spec_float)
| PyStr (s : str)
| PyBytes (b : bytes)
| PyDate (iso : str)
| PyList (l : list pyobj)
| PySet (l : list pyobj)
| PyDict (d : list (pyobj * pyobj)).
Local Set Elimination Schemes.

(** A dict literal with string keys, in source order. *)
Definition dict : Type := list (str * pyobj).

Definition keys (d : dict) : list str := map fst d.

(** What the handler returns: a [JSONResponse] it built itself, or a
    plain dict that is left to FastAPI to serialise. *)
Inductive Response : Type :=
| JSONResponse (status_code : Z) (content : dict)
| Dict (content : dict).

(** An uploaded file: the filename of the form part, if any, and its bytes. *)
Record UploadFile : Type := {
  filename : option str;
  file : bytes
}.

(** [subprocess.TimeoutExpired], or any other instance [e] of [Exception]
    with [str(e)] as its message. *)
Inductive exn : Type :=
| TimeoutExpired
| Exception (msg : str).

(** The call [subprocess.run(args, capture_output=, text=, timeout=, input=)]. *)
Record RunArgs : Type := {
  args : list str;
  capture_output : bool;
  text : bool;
  timeout : Q;
  input : option str
}.

Record CompletedProcess : Type := {
  returncode : Z;
  stdout : str;
  stderr : str
}.

(** What the external process does: it cannot be started ([OSError],
    [ValueError]), it exits after [elapsed] seconds with a status and the
    bytes it wrote to stdout and stderr, or it never exits. *)
Inductive Behaviour : Type :=
| Fails (msg : str)
| Exits (elapsed : Q) (code : Z) (out err : bytes)
| Hangs.

(** ** State, trace and environment *)

Inductive Event : Type :=
| ENamedTemporaryFile (suffix : str) (r : exn + str)
| ERead (r : option exn)
| EWrite (p : str) (data : bytes) (r : option exn)
| EClose (p : str) (r : option exn)
| ERun (a : RunArgs) (b : Behaviour)
| EUnlink (p : str)
| EExistsFailed (p : str) (e : exn)
| EUnlinkFailed (p : str) (e : exn).

Record State : Type := {
  fs : gmap str bytes;          (* the files that exist, with their content *)
  temp_path : option str;       (* the handler's local variable *)
  trace : list Event            (* library calls so far, oldest first *)
}.

Record Env : Type := {
  tempdir : str;                                   (* abspath(gettempdir()) *)
  mkstemp : str -> State -> exn + (nat -> nat);    (* failure, or the random draws *)
  read_fails : UploadFile -> State -> option exn;
  write_fails : str -> bytes -> State -> option exn;
  close_fails : str -> State -> option exn;
  process : RunArgs -> State -> Behaviour * gmap str bytes;
  decode : bytes -> exn + str;                     (* the locale's codec, newlines translated *)
  yaml_safe_load : str -> exn + pyobj;             (* on a non-empty stream *)
  stat_fails : str -> State -> option exn;         (* an error [exists()] does not swallow *)
  unlink_fails : str -> State -> option exn;
  render_fails : dict -> option exn                (* jsonable_encoder, then json.dumps *)
}.

Inductive Outcome (A : Type) : Type :=
| Return (a : A)
| Raised (e : exn).
Arguments Return {A} a.
Arguments Raised {A} e.

(** State and exceptions. *)
Definition M (A : Type) : Type := State -> Outcome A * State.

#[global] Instance M_ret : MRet M := fun A a st => (Return a, st).

#[global] Instance M_bind : MBind M := fun A B f m st =>
  match m st with
  | (Return a, st') => f a st'
  | (Raised e, st') => (Raised e, st')
  end.

(** [try: body  except Exception as e: handler e] *)
Definition try_except {A} (body : M A) (handler : exn -> M A) : M A :=
  fun st =>
    match body st with
    | (Return a, st') => (Return a, st')
    | (Raised e, st') => handler e st'
    end.

(** [try: body  finally: final]: [final] runs on every exit of [body];
    an exception of [final] replaces the pending result. *)
Definition try_finally {A} (body : M A) (final : M unit) : M A :=
  fun st =>
    match body st with
    | (o, st') =>
        match final st' with
        | (Return _, st'') => (o, st'')
        | (Raised e, st'') => (Raised e, st'')
        end
    end.

Definition log (ev : Event) (st : State) : State :=
  {| fs := fs st; temp_path := temp_path st; trace := trace st ++ [ev] |}.

Definition with_fs (m : gmap str bytes) (st : State) : State :=
  {| fs := m; temp_path := temp_path st; trace := trace st |}.

Definition get_temp_path : M (option str) := fun st => (Return (temp_path st), st).

Definition set_temp_path (v : option str) : M unit := fun st =>
  (Return tt, {| fs := fs st; temp_path := v; trace := trace st |}).

(** ** The library calls, against an environment *)

Section Calls.
Context (E : Env).

(** tempfile's name alphabet and one random name: eight draws. *)
Definition characters : str := lit "abcdefghijklmnopqrstuvwxyz0123456789_".

Definition random_name (rng : nat -> nat) : str :=
  map (fun k => nth (rng k mod 37)%nat characters 95%N) (seq 0 8).

(** [tempfile.NamedTemporaryFile(delete=False, suffix=suffix)], returning
    [tmp.name]: the file [join(dir, "tmp" + name + suffix)] now exists,
    empty.  The retries over names already taken happen inside the
    library; the oracle gives the draws of the name finally created. *)
Definition NamedTemporaryFile (suffix : str) : M str := fun st =>
  match mkstemp E suffix st with
  | inl e => (Raised e, log (ENamedTemporaryFile suffix (inl e)) st)
  | inr rng =>
      let name := path_join (tempdir E) (lit "tmp" ++ random_name rng ++ suffix) in
      (Return name,
       log (ENamedTemporaryFile suffix (inr name)) (with_fs (<[name := []]> (fs st)) st))
  end.

(** [await input_file.read()] *)
Definition upload_read (f : UploadFile) : M bytes := fun st =>
  match read_fails E f st with
  | Some e => (Raised e, log (ERead (Some e)) st)
  | None => (Return (file f), log (ERead None) st)
  end.

(** [tmp.write(data)] on the file just created. *)
Definition tmp_write (p : str) (data : bytes) : M unit := fun st =>
  match write_fails E p data st with
  | Some e => (Raised e, log (EWrite p data (Some e)) st)
  | None => (Return tt, log (EWrite p data None) (with_fs (<[p := data]> (fs st)) st))
  end.

(** [tmp.close()] *)
Definition tmp_close (p : str) : M unit := fun st =>
  match close_fails E p st with
  | Some e => (Raised e, log (EClose p (Some e)) st)
  | None => (Return tt, log (EClose p None) st)
  end.

(** What [subprocess.run] makes of a behaviour under the call's
    timeout: the child is killed and [TimeoutExpired] raised when it
    has not exited by then; otherwise its output is decoded as text,
    stdout first, and a decoding error is raised as it is. *)
Definition run_result (a : RunArgs) (b : Behaviour) : exn + CompletedProcess :=
  match b with
  | Fails msg => inl (Exception msg)
  | Exits elapsed code out err =>
      if Qle_bool elapsed (timeout a)
      then match decode E out with
           | inl e => inl e
           | inr out' =>
               match decode E err with
               | inl e => inl e
               | inr err' => inr {| returncode := code; stdout := out'; stderr := err' |}
               end
           end
      else inl TimeoutExpired
  | Hangs => inl TimeoutExpired
  end.

(** [subprocess.run(...)] with captured text output.  The process may
    change the file system as it pleases. *)
Definition subprocess_run (a : RunArgs) : M CompletedProcess := fun st =>
  let '(b, fs') := process E a st in
  let st' := log (ERun a b) (with_fs fs' st) in
  match run_result a b with
  | inl e => (Raised e, st')
  | inr proc => (Return proc, st')
  end.

(** What [yaml.safe_load] answers: a stream without a document, as the
    empty string is, gives [None] ([get_single_data]); a non-empty stream
    is left to the parser. *)
Definition load_yaml (s : str) : exn + pyobj :=
  match s with
  | [] => inr PyNone
  | _ :: _ => yaml_safe_load E s
  end.

(** [yaml.safe_load(s)] *)
Definition safe_load (s : str) : M pyobj := fun st =>
  match load_yaml s with
  | inl e => (Raised e, st)
  | inr v => (Return v, st)
  end.

(** [p.exists()]: [stat] errors other than "no such file" are raised. *)
Definition path_exists (p : str) : M bool := fun st =>
  match stat_fails E p st with
  | Some e => (Raised e, log (EExistsFailed p e) st)
  | None => (Return (bool_decide (is_Some (fs st !! p))), st)
  end.

(** [p.unlink()] *)
Definition path_unlink (p : str) : M unit := fun st =>
  match fs st !! p with
  | Some _ =>
      match unlink_fails E p st with
      | Some e => (Raised e, log (EUnlinkFailed p e) st)
      | None => (Return tt, log (EUnlink p) (with_fs (delete p (fs st)) st))
      end
  | None =>
      (Raised (Exception (lit "[Errno 2] No such file or directory: '" ++ p ++ lit "'")),
       log (EUnlinkFailed p
              (Exception (lit "[Errno 2] No such file or directory: '" ++ p ++ lit "'"))) st)
  end.
End Calls.

(** ** The handler, once per source file *)

(** web/main.py, lines 117 to 169. *)
Module Web.
Definition run_mup1cc (E : Env) (method device : str)
    (input_file : option UploadFile) : M Response :=
  set_temp_path None ;;
  try_finally
    (try_except
       ((match input_file with
         | Some f =>
             let suffix :=
               str_or (path_suffix (str_or (default [] (filename f)) (lit "input")))
                      (lit ".yaml") in
             tmp ← NamedTemporaryFile E suffix;
             set_temp_path (Some tmp) ;;
             data ← upload_read E f;
             tmp_write E tmp data ;;
             tmp_close E tmp
         | None => mret tt
         end) ;;
        temp_path ← get_temp_path;
        let cmd := [lit "dr"; lit "mup1cc"; lit "-d"; device; lit "-m"; method] in
        let cmd := match temp_path with
                   | Some p => cmd ++ [lit "-i"; p]
                   | None => cmd
                   end in
        proc ← subprocess_run E {| args := cmd; capture_output := true; text := true;
                                   timeout := inject_Z 30; input := None |};
        if negb (returncode proc =? 0) then
          mret (JSONResponse 500
                  [(lit "error",
                    PyStr (str_or (strip (stderr proc)) (lit "mup1cc failed")))])
        else
          let stdout := strip (stdout proc) in
          try_except
            (parsed ← safe_load E stdout;
             mret (Dict [(lit "output", parsed)]))
            (fun _ => mret (Dict [(lit "output_raw", PyStr stdout)])))
       (fun e =>
          match e with
          | TimeoutExpired =>
              mret (JSONResponse 504 [(lit "error", PyStr (lit "mup1cc timeout"))])
          | Exception msg =>
              mret (JSONResponse 500 [(lit "error", PyStr msg)])
          end))
    (temp_path ← get_temp_path;
     match temp_path with
     | Some p =>
         b ← path_exists E p;
         if (b : bool) then path_unlink E p else mret tt
     | None => mret tt
     end).
End Web.

(** support/docker/main.py, lines 103 to 143. *)
Module Docker.
Definition run_mup1cc (E : Env) (method device : str)
    (input_file : option UploadFile) : M Response :=
  set_temp_path None ;;
  try_finally
    (try_except
       ((match input_file with
         | Some f =>
             let suffix :=
               str_or (path_suffix (str_or (default [] (filename f)) (lit "input")))
                      (lit ".yaml") in
             tmp ← NamedTemporaryFile E suffix;
             set_temp_path (Some tmp) ;;
             data ← upload_read E f;
             tmp_write E tmp data ;;
             tmp_close E tmp
         | None => mret tt
         end) ;;
        temp_path ← get_temp_path;
        let cmd := [lit "dr"; lit "mup1cc"; lit "-d"; device; lit "-m"; method] in
        let cmd := match temp_path with
                   | Some p => cmd ++ [lit "-i"; p]
                   | None => cmd
                   end in
        proc ← subprocess_run E {| args := cmd; capture_output := true; text := true;
                                   timeout := inject_Z 30; input := None |};
        if negb (returncode proc =? 0) then
          mret (JSONResponse 500
                  [(lit "error",
                    PyStr (str_or (strip (stderr proc)) (lit "mup1cc failed")))])
        else
          let stdout := strip (stdout proc) in
          try_except
            (parsed ← safe_load E stdout;
             mret (Dict [(lit "output", parsed)]))
            (fun _ => mret (Dict [(lit "output_raw", PyStr stdout)])))
       (fun e =>
          match e with
          | TimeoutExpired =>
              mret (JSONResponse 504 [(lit "error", PyStr (lit "mup1cc timeout"))])
          | Exception msg =>
              mret (JSONResponse 500 [(lit "error", PyStr msg)])
          end))
    (temp_path ← get_temp_path;
     match temp_path with
     | Some p =>
         b ← path_exists E p;
         if (b : bool) then path_unlink E p else mret tt
     | None => mret tt
     end).
End Docker.

(** The two copies of the service. *)
Inductive Copy : Type := WebCopy | DockerCopy.

Definition run_mup1cc (c : Copy) : Env -> str -> str -> option UploadFile -> M Response :=
  match c with
  | WebCopy => Web.run_mup1cc
  | DockerCopy => Docker.run_mup1cc
  end.

(** One request: the handler run from a file system [fs0], with an empty
    trace. *)
Definition handle (c : Copy) (E : Env) (method device : str)
    (input_file : option UploadFile) (fs0 : gmap str bytes) : Outcome Response * State :=
  run_mup1cc c E method device input_file {| fs := fs0; temp_path := None; trace := [] |}.

Definition response_of (r : Outcome Response * State) : Outcome Response := fst r.
Definition final_fs (r : Outcome Response * State) : gmap str bytes := fs (snd r).
Definition calls_of (r : Outcome Response * State) : list Event := trace (snd r).

(** ** How the service answers *)

(** An HTTP response as the client sees it: a status and a JSON or a
    plain-text body. *)
Inductive Body : Type :=
| Json (d : dict)
| PlainText (s : str).

Record HttpResponse : Type := {
  status : Z;
  body : Body
}.

(** What Starlette answers when an exception leaves the route. *)
Definition internal_error : HttpResponse :=
  {| status := 500; body := PlainText (lit "Internal Server Error") |}.

(** A Unicode scalar value: a code point that is no surrogate. *)
Definition scalar (c : char) : bool :=
  ((c <? 55296) || (57343 <? c) && (c <=? 1114111))%N.

(** Values FastAPI serialises without fail: null, booleans and text.
    Whether another value serialises (a number, a float that may be NaN,
    bytes that may not be UTF-8, a container) is for the oracle. *)
Definition plain (v : pyobj) : bool :=
  match v with
  | PyNone | PyBool _ => true
  | PyStr s => forallb scalar s
  | _ => false
  end.

(** The exception raised while a returned dict is serialised
    ([jsonable_encoder], then [JSONResponse(content)]), if any. *)
Definition serialize_fails (E : Env) (d : dict) : option exn :=
  if forallb (fun kv => forallb scalar kv.1 && plain kv.2) d then None
  else render_fails E d.

(** FastAPI on the handler's outcome: a [JSONResponse] goes out as it
    is, a plain dict is serialised and sent with status 200, and an
    exception, of the handler or of the serialisation, is answered with
    the plain-text 500. *)
Definition serve (E : Env) (o : Outcome Response) : HttpResponse :=
  match o with
  | Return (JSONResponse code d) => {| status := code; body := Json d |}
  | Return (Dict d) =>
      match serialize_fails E d with
      | None => {| status := 200; body := Json d |}
      | Some _ => internal_error
      end
  | Raised _ => internal_error
  end.

(** The answer to one request. *)
Definition answer (c : Copy) (E : Env) (method device : str)
    (input_file : option UploadFile) (fs0 : gmap str bytes) : HttpResponse :=
  serve E (response_of (handle c E method device input_file fs0)).

(** ** Environments for examples *)

(** Text as the bytes of its characters, for ASCII text. *)
Definition ascii_bytes (s : str) : bytes :=
  map (fun c => default Byte.x3f (Byte.of_N c)) s.

(** A strict decoder on ASCII bytes; any other byte is refused, with the
    message UTF-8 gives for a lone 0xff. *)
Definition decode_demo (b : bytes) : exn + str :=
  if forallb (fun x => (Byte.to_N x <? 128)%N) b then inr (map Byte.to_N b)
  else inl (Exception
              (lit "'utf-8' codec can't decode byte 0xff in position 0: invalid start byte")).

(** A decoder that knows one mapping and one float, and refuses the
    rest as a broken flow sequence. *)
Definition yaml_demo (s : str) : exn + pyobj :=
  if bool_decide (s = lit "status: ok")
  then inr (PyDict [(PyStr (lit "status"), PyStr (lit "ok"))])
  else if bool_decide (s = lit ".nan") then inr (PyFloat S754_nan)
       else inl (Exception (lit "while parsing a flow sequence")).

(** A serialiser that refuses the floats JSON has no syntax for. *)
Definition render_demo (d : dict) : option exn :=
  if existsb (fun kv => match kv.2 with
                        | PyFloat S754_nan | PyFloat (S754_infinity _) => true
                        | _ => false
                        end) d
  then Some (Exception (lit "Out of range float values are not JSON compliant"))
  else None.

(** File operations that succeed, random draws that are all [seed], and
    a process that behaves as [b] and touches no file. *)
Definition demo_env (seed : nat) (b : RunArgs -> Behaviour) : Env :=
  {| tempdir := lit "/tmp";
     mkstemp := fun _ _ => inr (fun _ => seed);
     read_fails := fun _ _ => None;
     write_fails := fun _ _ _ => None;
     close_fails := fun _ _ => None;
     process := fun a st => (b a, fs st);
     decode := decode_demo;
     yaml_safe_load := yaml_demo;
     stat_fails := fun _ _ => None;
     unlink_fails := fun _ _ => None;
     render_fails := render_demo |}.

Definition exits_with (code : Z) (out err : str) : RunArgs -> Behaviour :=
  fun _ => Exits 0 code (ascii_bytes out) (ascii_bytes err).

Definition conf_yaml : UploadFile :=
  {| filename := Some (lit "conf.yml"); file := [] |}.

(** ** The shapes of a run *)

(** The pieces of the handler, named. *)
Definition start (fs0 : gmap str bytes) : State :=
  {| fs := fs0; temp_path := None; trace := [] |}.

Definition suffix_of (f : UploadFile) : str :=
  str_or (path_suffix (str_or (default [] (filename f)) (lit "input"))) (lit ".yaml").

Definition temp_name (E : Env) (rng : nat -> nat) (suffix : str) : str :=
  path_join (tempdir E) (lit "tmp" ++ random_name rng ++ suffix).

Definition command (device method : str) (temp : option str) : list str :=
  [lit "dr"; lit "mup1cc"; lit "-d"; device; lit "-m"; method]
  ++ match temp with
     | Some p => [lit "-i"; p]
     | None => []
     end.

Definition call (device method : str) (temp : option str) : RunArgs :=
  {| args := command device method temp; capture_output := true; text := true;
     timeout := inject_Z 30; input := None |}.

Definition on_error (e : exn) : Response :=
  match e with
  | TimeoutExpired => JSONResponse 504 [(lit "error", PyStr (lit "mup1cc timeout"))]
  | Exception msg => JSONResponse 500 [(lit "error", PyStr msg)]
  end.

Definition on_exit (E : Env) (proc : CompletedProcess) : Response :=
  if negb (returncode proc =? 0)
  then JSONResponse 500
         [(lit "error", PyStr (str_or (strip (stderr proc)) (lit "mup1cc failed")))]
  else match load_yaml E (strip (stdout proc)) with
       | inr parsed => Dict [(lit "output", parsed)]
       | inl _ => Dict [(lit "output_raw", PyStr (strip (stdout proc)))]
       end.

Definition respond (E : Env) (r : exn + CompletedProcess) : Response :=
  match r with
  | inl e => on_error e
  | inr proc => on_exit E proc
  end.

(** The [finally] block after the [try] statement has settled on [resp]
    in state [st]. *)
Definition finish (E : Env) (resp : Response) (st : State) : Outcome Response * State :=
  match temp_path st with
  | Some p =>
      match stat_fails E p st with
      | Some e => (Raised e, log (EExistsFailed p e) st)
      | None =>
          if bool_decide (is_Some (fs st !! p)) then
            match unlink_fails E p st with
            | Some e => (Raised e, log (EUnlinkFailed p e) st)
            | None => (Return resp, log (EUnlink p) (with_fs (delete p (fs st)) st))
            end
          else (Return resp, st)
      end
  | None => (Return resp, st)
  end.

(** The cleanup of the [finally] block goes through in state [st]. *)
Definition cleans (E : Env) (st : State) : Prop :=
  match temp_path st with
  | Some p => stat_fails E p st = None /\ (is_Some (fs st !! p) -> unlink_fails E p st = None)
  | None => True
  end.

(** The states an upload goes through: file created, upload read, bytes
    written, file closed. *)
Definition created (E : Env) (f : UploadFile) (rng : nat -> nat) (fs0 : gmap str bytes) : State :=
  let p := temp_name E rng (suffix_of f) in
  {| fs := <[p := []]> fs0; temp_path := Some p;
     trace := [ENamedTemporaryFile (suffix_of f) (inr p)] |}.

Definition read_done (E : Env) f rng fs0 : State :=
  log (ERead None) (created E f rng fs0).

Definition written (E : Env) f rng fs0 : State :=
  let p := temp_name E rng (suffix_of f) in
  log (EWrite p (file f) None)
      (with_fs (<[p := file f]> (fs (read_done E f rng fs0))) (read_done E f rng fs0)).

Definition closed (E : Env) f rng fs0 : State :=
  log (EClose (temp_name E rng (suffix_of f)) None) (written E f rng fs0).

(** The environment lets the upload, if there is one, be kept in a
    temporary file: the state reached, and the file's path. *)
Inductive Stored (E : Env) : option UploadFile -> gmap str bytes -> State -> option str -> Prop :=
| stored_nothing fs0 : Stored E None fs0 (start fs0) None
| stored_upload f fs0 rng :
    mkstemp E (suffix_of f) (start fs0) = inr rng ->
    read_fails E f (created E f rng fs0) = None ->
    write_fails E (temp_name E rng (suffix_of f)) (file f) (read_done E f rng fs0) = None ->
    close_fails E (temp_name E rng (suffix_of f)) (written E f rng fs0) = None ->
    Stored E (Some f) fs0 (closed E f rng fs0) (Some (temp_name E rng (suffix_of f))).

(** The environment makes a step on the temporary file raise [e]: the
    state reached. *)
Inductive UploadFailed (E : Env) : UploadFile -> gmap str bytes -> exn -> State -> Prop :=
| create_failed f fs0 e :
    mkstemp E (suffix_of f) (start fs0) = inl e ->
    UploadFailed E f fs0 e (log (ENamedTemporaryFile (suffix_of f) (inl e)) (start fs0))
| read_failed f fs0 rng e :
    mkstemp E (suffix_of f) (start fs0) = inr rng ->
    read_fails E f (created E f rng fs0) = Some e ->
    UploadFailed E f fs0 e (log (ERead (Some e)) (created E f rng fs0))
| write_failed f fs0 rng e :
    mkstemp E (suffix_of f) (start fs0) = inr rng ->
    read_fails E f (created E f rng fs0) = None ->
    write_fails E (temp_name E rng (suffix_of f)) (file f) (read_done E f rng fs0) = Some e ->
    UploadFailed E f fs0 e
      (log (EWrite (temp_name E rng (suffix_of f)) (file f) (Some e)) (read_done E f rng fs0))
| close_failed f fs0 rng e :
    mkstemp E (suffix_of f) (start fs0) = inr rng ->
    read_fails E f (created E f rng fs0) = None ->
    write_fails E (temp_name E rng (suffix_of f)) (file f) (read_done E f rng fs0) = None ->
    close_fails E (temp_name E rng (suffix_of f)) (written E f rng fs0) = Some e ->
    UploadFailed E f fs0 e
      (log (EClose (temp_name E rng (suffix_of f)) (Some e)) (written E f rng fs0)).

(** The environment lets the request reach the external process, called
    as [a]; the process behaves as [b], and [st] is the state after it. *)
Inductive Invoked (E : Env) (method device : str) (input_file : option UploadFile)
    (fs0 : gmap str bytes) : RunArgs -> Behaviour -> State -> Prop :=
| invoked st0 temp b fs1 :
    Stored E input_file fs0 st0 temp ->
    process E (call device method temp) st0 = (b, fs1) ->
    Invoked E method device input_file fs0 (call device method temp) b
      (log (ERun (call device method temp) b) (with_fs fs1 st0)).

(** Every way a request can go, with the outcome and the final state. *)
Inductive Run (E : Env) (method device : str) :
    option UploadFile -> gmap str bytes -> Outcome Response * State -> Prop :=
| run_upload_failed f fs0 e st :
    UploadFailed E f fs0 e st ->
    Run E method device (Some f) fs0 (finish E (on_error e) st)
| run_invoked input_file fs0 a b st :
    Invoked E method device input_file fs0 a b st ->
    Run E method device input_file fs0 (finish E (respond E (run_result E a b)) st).

(** The handler cut at the steps its comments number. *)

(** Step (1): keep the upload in a temporary file. *)
Definition store_upload (E : Env) (input_file : option UploadFile) : M unit :=
  match input_file with
  | Some f =>
      let suffix :=
        str_or (path_suffix (str_or (default [] (filename f)) (lit "input")))
               (lit ".yaml") in
      tmp ← NamedTemporaryFile E suffix;
      set_temp_path (Some tmp) ;;
      data ← upload_read E f;
      tmp_write E tmp data ;;
      tmp_close E tmp
  | None => mret tt
  end.

(** Steps (2) to (5): build the command, run it, answer. *)
Definition invoke (E : Env) (method device : str) : M Response :=
  temp_path ← get_temp_path;
  let cmd := [lit "dr"; lit "mup1cc"; lit "-d"; device; lit "-m"; method] in
  let cmd := match temp_path with
             | Some p => cmd ++ [lit "-i"; p]
             | None => cmd
             end in
  proc ← subprocess_run E {| args := cmd; capture_output := true; text := true;
                             timeout := inject_Z 30; input := None |};
  if negb (returncode proc =? 0) then
    mret (JSONResponse 500
            [(lit "error", PyStr (str_or (strip (stderr proc)) (lit "mup1cc failed")))])
  else
    let stdout := strip (stdout proc) in
    try_except
      (parsed ← safe_load E stdout;
       mret (Dict [(lit "output", parsed)]))
      (fun _ => mret (Dict [(lit "output_raw", PyStr stdout)])).

(** The two [except] clauses of the outer [try]. *)
Definition except_clauses (e : exn) : M Response :=
  match e with
  | TimeoutExpired =>
      mret (JSONResponse 504 [(lit "error", PyStr (lit "mup1cc timeout"))])
  | Exception msg =>
      mret (JSONResponse 500 [(lit "error", PyStr msg)])
  end.

(** Step (6): the [finally] block. *)
Definition cleanup (E : Env) : M unit :=
  temp_path ← get_temp_path;
  match temp_path with
  | Some p =>
      b ← path_exists E p;
      if (b : bool) then path_unlink E p else mret tt
  | None => mret tt
  end.


(** ** Vocabulary of the properties *)

(** The process does not complete within [limit] seconds. *)
Definition exceeds (limit : Q) (b : Behaviour) : Prop :=
  match b with
  | Fails _ => False
  | Exits elapsed _ _ _ => (limit < elapsed)%Q
  | Hangs => True
  end.

(** The exception a library call raised, if it raised one. *)
Definition raised_by (E : Env) (ev : Event) : option exn :=
  match ev with
  | ENamedTemporaryFile _ (inl e) => Some e
  | ENamedTemporaryFile _ (inr _) => None
  | ERead r => r
  | EWrite _ _ r => r
  | EClose _ r => r
  | ERun a b =>
      match run_result E a b with
      | inl e => Some e
      | inr _ => None
      end
  | EUnlink _ => None
  | EExistsFailed _ e => Some e
  | EUnlinkFailed _ e => Some e
  end.

(** The extension of the upload's filename, [.yaml] without one. *)
Definition extension_or_yaml (f : UploadFile) : str :=
  match filename f with
  | Some name =>
      match path_suffix name with
      | [] => lit ".yaml"
      | c :: ext => c :: ext
      end
  | None => lit ".yaml"
  end.

(** A file-name extension: a dot, then at least one character, none of
    them a dot or a slash. *)
Definition is_extension (s : str) : Prop :=
  exists ext, s = (dot :: ext) /\ ext <> [] /\ (dot ∉ ext) /\ (slash ∉ ext).

(** The external process is the function [g] of its command line. *)
Definition process_is (E : Env) (g : list str -> Behaviour) : Prop :=
  forall a st, (process E a st).1 = g (args a).

(** The cleanup of the [finally] block never fails. *)
Definition cleanup_safe (E : Env) : Prop :=
  (forall p st, stat_fails E p st = None) /\ (forall p st, unlink_fails E p st = None).

(** A process that fails, printing its last argument on stderr. *)
Definition echo_last (cmd : list str) : Behaviour :=
  Exits 0 1 [] (ascii_bytes (List.last cmd [])).

(** Inputs of the examples. *)
Definition ttyACM0 : str := lit "/dev/ttyACM0".
Definition get : str := lit "get".


(** [E], but every [unlink] is refused with [e]. *)
Definition with_unlink_error (E : Env) (e : exn) : Env :=
  {| tempdir := tempdir E;
     mkstemp := mkstemp E;
     read_fails := read_fails E;
     write_fails := write_fails E;
     close_fails := close_fails E;
     process := process E;
     decode := decode E;
     yaml_safe_load := yaml_safe_load E;
     stat_fails := stat_fails E;
     unlink_fails := fun _ _ => Some e;
     render_fails := render_fails E |}.

Definition denied : exn := Exception (lit "[Errno 13] Permission denied").

(** ** Vocabulary of the further properties *)

Definition is_run (ev : Event) : bool :=
  match ev with
  | ERun _ _ => true
  | _ => false
  end.

(** How many times [subprocess.run] was called. *)
Definition count_runs (tr : list Event) : nat := length (List.filter is_run tr).

(** The calls of step (1), on the temporary file and the upload. *)
Definition is_file_event (ev : Event) : bool :=
  match ev with
  | ENamedTemporaryFile _ _ | ERead _ | EWrite _ _ _ | EClose _ _ => true
  | ERun _ _ | EUnlink _ | EExistsFailed _ _ | EUnlinkFailed _ _ => false
  end.

(** No whitespace at the start, none at the end. *)
Definition starts_clean (s : str) : Prop :=
  match s with
  | [] => True
  | c :: _ => isspace c = false
  end.

Definition ends_clean (s : str) : Prop := starts_clean (rev s).

(** A process that prints the file named by its last argument. *)
Definition cat_last : Env :=
  {| tempdir := lit "/tmp";
     mkstemp := fun _ _ => inr (fun _ => O);
     read_fails := fun _ _ => None;
     write_fails := fun _ _ _ => None;
     close_fails := fun _ _ => None;
     process := fun a st =>
       (Exits 0 0 (default [] (fs st !! List.last (args a) [])) [], fs st);
     decode := decode_demo;
     yaml_safe_load := yaml_demo;
     stat_fails := fun _ _ => None;
     unlink_fails := fun _ _ => None;
     render_fails := render_demo |}.

(** A disk without room for what the upload holds. *)
Definition disk_full : Env :=
  {| tempdir := lit "/tmp";
     mkstemp := fun _ _ => inr (fun _ => O);
     read_fails := fun _ _ => None;
     write_fails := fun _ data _ =>
       match data with
       | [] => None
       | _ :: _ => Some (Exception (lit "[Errno 28] No space left on device"))
       end;
     close_fails := fun _ _ => None;
     process := fun a st => (Exits 0 0 [] [], fs st);
     decode := decode_demo;
     yaml_safe_load := yaml_demo;
     stat_fails := fun _ _ => None;
     unlink_fails := fun _ _ => None;
     render_fails := render_demo |}.

Definition dotfile : UploadFile :=
  {| filename := Some (lit "conf/.yml"); file := [] |}.

Definition traversal : UploadFile :=
  {| filename := Some (lit "../../etc/cron.d/job.sh"); file := [] |}.

Definition patch_yaml : UploadFile :=
  {| filename := Some (lit "patch.yaml"); file := [Byte.x61; Byte.x3a; Byte.x20; Byte.x31] |}.

(** The calls of step (6), the cleanup. *)
Definition is_cleanup_event (ev : Event) : bool :=
  match ev with
  | EUnlink _ | EExistsFailed _ _ | EUnlinkFailed _ _ => true
  | _ => false
  end.

(** ** Examples of the text functions *)

Example suffix_yaml : path_suffix (lit "conf/ietf.interfaces.yaml") = lit ".yaml".
Proof. reflexivity. Qed.
Example suffix_hidden : path_suffix (lit ".bashrc") = [].
Proof. reflexivity. Qed.
Example suffix_trailing_dot : path_suffix (lit "a.") = [].
Proof. reflexivity. Qed.
Example suffix_input : path_suffix (lit "input") = [].
Proof. reflexivity. Qed.
Example strip_ex : strip (lit "  a b ") = lit "a b".
Proof. reflexivity. Qed.

(** ** Text lemmas *)

Lemma lstrip_spaces (s : str) : Forall (fun c => isspace c = true) s -> lstrip s = [].
Proof. induction 1 as [|c s Hc _ IH]; [reflexivity|]. cbn. by rewrite Hc. Qed.

Lemma lstrip_nil_inv (s : str) : lstrip s = [] -> Forall (fun c => isspace c = true) s.
Proof.
  induction s as [|c s IH]; [constructor|]. cbn.
  destruct (isspace c) eqn:Hc; [|discriminate]. auto.
Qed.

Lemma lstrip_split (s : str) :
  exists sp, s = sp ++ lstrip s /\ Forall (fun c => isspace c = true) sp.
Proof.
  induction s as [|c s (sp & Hs & Hsp)]; [by exists []|]. cbn.
  destruct (isspace c) eqn:Hc.
  - exists (c :: sp). split; [cbn; by f_equal | by constructor].
  - by exists [].
Qed.

(** The trimmed text is empty exactly for whitespace-only text. *)
Lemma strip_nil_iff (s : str) : strip s = [] <-> Forall (fun c => isspace c = true) s.
Proof.
  unfold strip, rstrip. split.
  - intros H. apply (f_equal (@rev char)) in H. rewrite rev_involutive in H. cbn in H.
    apply lstrip_nil_inv in H.
    destruct (lstrip_split s) as (sp & Hs & Hsp). rewrite Hs.
    apply Forall_app. split; [done|].
    apply Forall_rev in H. by rewrite rev_involutive in H.
  - intros H. by rewrite (lstrip_spaces s H).
Qed.

Lemma split_on_nonempty sep s : split_on sep s <> [].
Proof.
  destruct s as [|c s]; [done|]. cbn.
  destruct (c =? sep)%N; [done|]. by destruct (split_on sep s).
Qed.

Lemma split_on_app sep d n :
  split_on sep (d ++ sep :: n) = split_on sep d ++ split_on sep n.
Proof.
  induction d as [|c d IH]; cbn.
  - by rewrite N.eqb_refl.
  - destruct (c =? sep)%N; [by rewrite IH|].
    rewrite IH. pose proof (split_on_nonempty sep d).
    by destruct (split_on sep d).
Qed.

Lemma split_on_free sep n : sep ∉ n -> split_on sep n = [n].
Proof.
  induction n as [|c n IH]; [done|]. intros Hn. cbn.
  destruct (N.eqb_spec c sep) as [->|_]; [exfalso; apply Hn; left|].
  rewrite IH; [done|]. intros ?. apply Hn. by right.
Qed.

Lemma split_on_parts sep s x : x ∈ split_on sep s -> sep ∉ x.
Proof.
  revert x. induction s as [|c s IH]; intros x; cbn.
  - intros ->%list_elem_of_singleton. apply not_elem_of_nil.
  - destruct (N.eqb_spec c sep) as [->|Hne].
    + intros [->|?]%elem_of_cons; [apply not_elem_of_nil | auto].
    + pose proof (split_on_nonempty sep s).
      destruct (split_on sep s) as [|h t]; [done|].
      intros [->|?]%elem_of_cons.
      * intros [?|?]%elem_of_cons; [done|]. apply (IH h); [left | done].
      * apply IH. by right.
Qed.

Lemma path_name_free (s : str) : slash ∉ path_name s.
Proof.
  unfold path_name, path_parts.
  destruct (filter _ (split_on slash s)) as [|x l] eqn:Hf using rev_ind.
  - apply not_elem_of_nil.
  - rewrite last_last. apply (split_on_parts slash s).
    assert (Hx : x ∈ filter (fun x => x ≠ [] ∧ x ≠ [dot]) (split_on slash s))
      by (rewrite Hf; apply elem_of_app; right; left).
    by apply list_elem_of_filter in Hx as [_ ?].
Qed.

Lemma rfind_None c s : c ∉ s -> rfind c s = None.
Proof.
  induction s as [|x s IH]; [done|]. intros Hs. cbn.
  rewrite IH by (intros ?; apply Hs; by right).
  destruct (N.eqb_spec x c) as [->|_]; [exfalso; apply Hs; left | done].
Qed.

Lemma rfind_last c pre post : c ∉ post -> rfind c (pre ++ c :: post) = Some (length pre).
Proof.
  intros Hp. induction pre as [|x pre IH]; cbn.
  - by rewrite (rfind_None c post Hp), N.eqb_refl.
  - by rewrite IH.
Qed.

Lemma rfind_Some c s i :
  rfind c s = Some i ->
  exists pre post, s = pre ++ c :: post /\ length pre = i /\ c ∉ post.
Proof.
  revert i. induction s as [|x s IH]; intros i; cbn; [done|].
  destruct (rfind c s) as [j|] eqn:Hj.
  - intros [= <-]. destruct (IH j eq_refl) as (pre & post & -> & <- & Hp).
    by exists (x :: pre), post.
  - destruct (N.eqb_spec x c) as [->|_]; [|done]. intros [= <-].
    exists [], s. split_and!; [done..|].
    intros Hin. clear IH. induction s as [|y s IHs]; [by apply not_elem_of_nil in Hin|].
    cbn in Hj. destruct (rfind c s) eqn:Hs; [done|].
    destruct (N.eqb_spec y c) as [->|Hne]; [done|].
    apply elem_of_cons in Hin as [->|Hin]; [done | by apply IHs].
Qed.


(** What pathlib calls the suffix: the name is a non-empty stem followed
    by an extension. *)
Lemma path_suffix_elim (s : str) :
  path_suffix s <> [] ->
  exists pre ext, path_name s = pre ++ dot :: ext /\ pre <> [] /\ path_suffix s = (dot :: ext)
                  /\ is_extension (dot :: ext).
Proof.
  unfold path_suffix. destruct (rfind dot (path_name s)) as [i|] eqn:Hr; [|done].
  destruct (rfind_Some _ _ _ Hr) as (pre & post & Hn & <- & Hp).
  case_match eqn:Hc; [|done]. intros _.
  apply andb_true_iff in Hc as [H1%Z.ltb_lt H2%Z.ltb_lt].
  rewrite Hn in H2 |- *. rewrite length_app in H2. cbn [length] in H2.
  exists pre, post. rewrite drop_app_length.
  split_and!; [done| by destruct pre; [cbn in H1; lia|] | done |].
  exists post. split_and!; [done| destruct post; [cbn in H2; lia | done] | done |].
  pose proof (path_name_free s) as Hf. rewrite Hn in Hf.
  intros ?. apply Hf. apply elem_of_app. right. by right.
Qed.

Lemma path_name_join (a b : str) :
  slash ∉ b -> b <> [] -> b <> [dot] -> path_name (path_join a b) = b.
Proof.
  intros Hb Hne Hnd.
  assert (Hlast : forall l, path_name (l ++ slash :: b) = b).
  { intros l. unfold path_name, path_parts.
    rewrite split_on_app, filter_app, (split_on_free slash b Hb).
    rewrite filter_cons_True by done. rewrite filter_nil. apply last_last. }
  assert (Hself : path_name b = b).
  { unfold path_name, path_parts. rewrite (split_on_free slash b Hb).
    by rewrite filter_cons_True by done. }
  unfold path_join.
  destruct b as [|c b']; [done|].
  destruct (N.eqb_spec c slash) as [->|_]; [exfalso; apply Hb; left|].
  destruct a as [|x0 a0]; [done|].
  destruct (List.last (x0 :: a0) dot =? slash)%N eqn:Hm; [|apply Hlast].
  destruct (exists_last (l := x0 :: a0)) as (a' & x & Ha); [done|].
  rewrite Ha in Hm |- *.
  rewrite last_last in Hm. apply N.eqb_eq in Hm as ->.
  rewrite <- app_assoc. apply Hlast.
Qed.

Lemma characters_free k : nth k characters 95%N <> slash.
Proof.
  assert (H : Forall (fun c => c <> slash) characters) by (repeat constructor; done).
  destruct (nth_in_or_default k characters 95%N) as [Hin| ->]; [|done].
  rewrite Forall_forall in H. apply H. by apply list_elem_of_In.
Qed.

Lemma random_name_free rng : slash ∉ random_name rng.
Proof.
  unfold random_name. intros Hin. apply list_elem_of_In, in_map_iff in Hin as (k & Hk & _).
  by apply characters_free in Hk.
Qed.


Lemma yaml_is_extension : is_extension (lit ".yaml").
Proof.
  exists (lit "yaml"). split_and!; [done..| |];
    unfold lit; cbn; rewrite !elem_of_cons; intros [H|[H|[H|[H|H]]]]; try done;
    by apply not_elem_of_nil in H.
Qed.

Lemma suffix_of_is_extension (f : UploadFile) : is_extension (suffix_of f).
Proof.
  unfold suffix_of.
  destruct (path_suffix (str_or (default [] (filename f)) (lit "input"))) as [|c s] eqn:Hs.
  - apply yaml_is_extension.
  - cbn [str_or]. rewrite <- Hs.
    destruct (path_suffix_elim (str_or (default [] (filename f)) (lit "input")))
      as (pre & ext & _ & _ & -> & ?); [by rewrite Hs | done].
Qed.

(** ** The handler and its steps *)

Lemma web_steps E method device input_file :
  Web.run_mup1cc E method device input_file =
  (set_temp_path None ;;
   try_finally
     (try_except (store_upload E input_file ;; invoke E method device) except_clauses)
     (cleanup E)).
Proof. reflexivity. Qed.

Lemma docker_steps E method device input_file :
  Docker.run_mup1cc E method device input_file =
  (set_temp_path None ;;
   try_finally
     (try_except (store_upload E input_file ;; invoke E method device) except_clauses)
     (cleanup E)).
Proof. reflexivity. Qed.

Lemma run_mup1cc_steps c E method device input_file :
  run_mup1cc c E method device input_file =
  (set_temp_path None ;;
   try_finally
     (try_except (store_upload E input_file ;; invoke E method device) except_clauses)
     (cleanup E)).
Proof. destruct c; [apply web_steps | apply docker_steps]. Qed.

(** The [finally] block is [finish]: it hands the pending response on,
    unless [exists()] or [unlink()] raises. *)
Lemma try_finally_finish E (body : M Response) (st st' : State) (resp : Response) :
  body st = (Return resp, st') ->
  try_finally body (cleanup E) st = finish E resp st'.
Proof.
  intros Hb. unfold try_finally. rewrite Hb.
  unfold cleanup, finish, mbind, M_bind, get_temp_path, path_exists, path_unlink, mret, M_ret.
  destruct (temp_path st') as [p|]; [|reflexivity].
  destruct (stat_fails E p st') as [e|]; [reflexivity|].
  case_bool_decide as Hp; [|reflexivity].
  destruct Hp as [x Hx]. rewrite Hx. by destruct (unlink_fails E p st').
Qed.

Lemma try_except_bind {A B} (m : M A) (k : A -> M B) (h : exn -> M B) (st : State) :
  try_except (m ≫= k) h st =
  match m st with
  | (Return a, st') => try_except (k a) h st'
  | (Raised e, st') => h e st'
  end.
Proof. unfold try_except, mbind, M_bind. by destruct (m st) as [[a|e] st']. Qed.

Lemma except_clauses_on_error (e : exn) (st : State) :
  except_clauses e st = (Return (on_error e), st).
Proof. by destruct e. Qed.

(** From the call of the process on, the handler answers [respond]. *)
Lemma invoke_respond (E : Env) (method device : str) (st : State) :
  try_except (invoke E method device) except_clauses st =
  let a := call device method (temp_path st) in
  (Return (respond E (run_result E a (process E a st).1)),
   log (ERun a (process E a st).1) (with_fs (process E a st).2 st)).
Proof.
  unfold invoke. rewrite try_except_bind. unfold get_temp_path.
  cbv zeta. rewrite try_except_bind.
  replace (match temp_path st with
           | Some p => [lit "dr"; lit "mup1cc"; lit "-d"; device; lit "-m"; method] ++ [lit "-i"; p]
           | None => [lit "dr"; lit "mup1cc"; lit "-d"; device; lit "-m"; method]
           end) with (command device method (temp_path st))
    by (unfold command; destruct (temp_path st); [reflexivity | by rewrite app_nil_r]).
  fold (call device method (temp_path st)).
  unfold subprocess_run.
  destruct (process E (call device method (temp_path st)) st) as [b fs1]. cbn [fst snd].
  destruct (run_result E (call device method (temp_path st)) b) as [e|proc] eqn:Hr.
  - by rewrite except_clauses_on_error.
  - unfold respond, on_exit, try_except, safe_load, mbind, M_bind, mret, M_ret.
    destruct (negb (returncode proc =? 0)); [reflexivity|].
    by destruct (load_yaml E (strip (stdout proc))).
Qed.

(** Step (1) on a fresh state, stage by stage. *)
Lemma store_upload_stages (E : Env) (f : UploadFile) (fs0 : gmap str bytes) :
  store_upload E (Some f) (start fs0) =
  match mkstemp E (suffix_of f) (start fs0) with
  | inl e => (Raised e, log (ENamedTemporaryFile (suffix_of f) (inl e)) (start fs0))
  | inr rng =>
      let p := temp_name E rng (suffix_of f) in
      match read_fails E f (created E f rng fs0) with
      | Some e => (Raised e, log (ERead (Some e)) (created E f rng fs0))
      | None =>
          match write_fails E p (file f) (read_done E f rng fs0) with
          | Some e => (Raised e, log (EWrite p (file f) (Some e)) (read_done E f rng fs0))
          | None =>
              match close_fails E p (written E f rng fs0) with
              | Some e => (Raised e, log (EClose p (Some e)) (written E f rng fs0))
              | None => (Return tt, closed E f rng fs0)
              end
          end
      end
  end.
Proof.
  unfold store_upload. fold (suffix_of f).
  unfold mbind, M_bind, NamedTemporaryFile.
  destruct (mkstemp E (suffix_of f) (start fs0)) as [e|rng]; [reflexivity|].
  fold (temp_name E rng (suffix_of f)). cbv zeta.
  unfold set_temp_path, upload_read.
  change (read_fails E f _) with (read_fails E f (created E f rng fs0)).
  destruct (read_fails E f (created E f rng fs0)) as [e|]; [reflexivity|].
  unfold tmp_write.
  change (write_fails E _ (file f) _)
    with (write_fails E (temp_name E rng (suffix_of f)) (file f) (read_done E f rng fs0)).
  destruct (write_fails E _ (file f) (read_done E f rng fs0)) as [e|]; [reflexivity|].
  unfold tmp_close.
  change (close_fails E _ _)
    with (close_fails E (temp_name E rng (suffix_of f)) (written E f rng fs0)).
  by destruct (close_fails E _ (written E f rng fs0)) as [e|].
Qed.

(** What the environment makes of step (1). *)
Lemma store_upload_cases (E : Env) (input_file : option UploadFile) (fs0 : gmap str bytes) :
  (exists st temp, Stored E input_file fs0 st temp /\ temp_path st = temp /\
     store_upload E input_file (start fs0) = (Return tt, st)) \/
  (exists f e st, input_file = Some f /\ UploadFailed E f fs0 e st /\
     store_upload E input_file (start fs0) = (Raised e, st)).
Proof.
  destruct input_file as [f|].
  - rewrite store_upload_stages.
    destruct (mkstemp E (suffix_of f) (start fs0)) as [e|rng] eqn:Hmk.
    { right. exists f, e. eexists. split_and!; [done| |done]. by apply create_failed. }
    cbv zeta.
    destruct (read_fails E f (created E f rng fs0)) as [e|] eqn:Hrd.
    { right. exists f, e. eexists. split_and!; [done| |done]. by eapply read_failed. }
    destruct (write_fails E _ (file f) (read_done E f rng fs0)) as [e|] eqn:Hwr.
    { right. exists f, e. eexists. split_and!; [done| |done]. by eapply write_failed. }
    destruct (close_fails E _ (written E f rng fs0)) as [e|] eqn:Hcl.
    { right. exists f, e. eexists. split_and!; [done| |done]. by eapply close_failed. }
    left. do 2 eexists. split_and!; [by apply stored_upload|reflexivity|reflexivity].
  - left. exists (start fs0), None. split_and!; [constructor|reflexivity|reflexivity].
Qed.

(** The handler goes one of the ways of [Run]. *)
Lemma handle_runs c E method device input_file fs0 :
  Run E method device input_file fs0 (handle c E method device input_file fs0).
Proof.
  unfold handle. rewrite run_mup1cc_steps.
  change ((set_temp_path None ;; ?m) {| fs := fs0; temp_path := None; trace := [] |})
    with (m (start fs0)).
  destruct (store_upload_cases E input_file fs0)
    as [(st & temp & Hst & Htemp & Hrun)|(f & e & st & -> & Hf & Hrun)].
  - erewrite try_finally_finish;
      [|rewrite try_except_bind, Hrun; apply invoke_respond].
    rewrite Htemp. cbv zeta.
    destruct (process E (call device method temp) st) as [b fs1] eqn:Hp. cbn [fst snd].
    apply run_invoked. by econstructor.
  - erewrite try_finally_finish;
      [|rewrite try_except_bind, Hrun; apply except_clauses_on_error].
    by apply run_upload_failed.
Qed.

(** ** Reading a run *)

(** The environment decides the run. *)
Lemma stored_run E input_file fs0 st temp :
  Stored E input_file fs0 st temp ->
  store_upload E input_file (start fs0) = (Return tt, st) /\ temp_path st = temp.
Proof.
  destruct 1 as [|f fs0 rng Hmk Hrd Hwr Hcl]; [done|].
  rewrite store_upload_stages, Hmk. cbv zeta. by rewrite Hrd, Hwr, Hcl.
Qed.

Lemma upload_failed_run E f fs0 e st :
  UploadFailed E f fs0 e st -> store_upload E (Some f) (start fs0) = (Raised e, st).
Proof.
  destruct 1 as [? ? ? Hmk|? ? ? ? Hmk Hrd|? ? ? ? Hmk Hrd Hwr|? ? ? ? Hmk Hrd Hwr Hcl];
    rewrite store_upload_stages, Hmk; cbv zeta; by rewrite ?Hrd, ?Hwr, ?Hcl.
Qed.

Lemma handle_invoked c E method device input_file fs0 a b st :
  Invoked E method device input_file fs0 a b st ->
  handle c E method device input_file fs0 = finish E (respond E (run_result E a b)) st.
Proof.
  destruct 1 as [st0 temp b fs1 Hst Hp]. destruct (stored_run _ _ _ _ _ Hst) as [Hrun Htemp].
  unfold handle. rewrite run_mup1cc_steps.
  change ((set_temp_path None ;; ?m) {| fs := fs0; temp_path := None; trace := [] |})
    with (m (start fs0)).
  erewrite try_finally_finish; [|rewrite try_except_bind, Hrun; apply invoke_respond].
  rewrite Htemp. cbv zeta. by rewrite Hp.
Qed.

Lemma handle_upload_failed c E method device f fs0 e st :
  UploadFailed E f fs0 e st ->
  handle c E method device (Some f) fs0 = finish E (on_error e) st.
Proof.
  intros Hf. unfold handle. rewrite run_mup1cc_steps.
  change ((set_temp_path None ;; ?m) {| fs := fs0; temp_path := None; trace := [] |})
    with (m (start fs0)).
  erewrite try_finally_finish; [reflexivity|].
  rewrite try_except_bind, (upload_failed_run _ _ _ _ _ Hf). apply except_clauses_on_error.
Qed.

(** Every request is of one of the two kinds. *)
Lemma handle_cases c E method device input_file fs0 :
  (exists f e st, input_file = Some f /\ UploadFailed E f fs0 e st /\
     handle c E method device input_file fs0 = finish E (on_error e) st) \/
  (exists a b st, Invoked E method device input_file fs0 a b st /\
     handle c E method device input_file fs0 = finish E (respond E (run_result E a b)) st).
Proof.
  destruct (handle_runs c E method device input_file fs0) as [f fs0 e st Hf|i fs0 a b st Hi].
  - left. by exists f, e, st.
  - right. by exists a, b, st.
Qed.

(** *** The [finally] block *)

Lemma finish_trace E resp st :
  exists tail, trace (finish E resp st).2 = trace st ++ tail /\
    Forall (fun ev => is_cleanup_event ev = true) tail.
Proof.
  unfold finish. destruct (temp_path st) as [p|]; [|exists []; by rewrite app_nil_r].
  destruct (stat_fails E p st) as [e|]; [eexists; split; [reflexivity|by repeat constructor]|].
  case_bool_decide; [|exists []; by rewrite app_nil_r].
  destruct (unlink_fails E p st) as [e|]; eexists; (split; [reflexivity|by repeat constructor]).
Qed.

Lemma finish_in E resp st ev :
  is_cleanup_event ev = false ->
  In ev (trace (finish E resp st).2) <-> In ev (trace st).
Proof.
  intros Hev. destruct (finish_trace E resp st) as (tail & -> & Htail).
  rewrite in_app_iff. split; [|tauto]. intros [?|Hin]; [done|].
  rewrite Forall_forall in Htail. apply list_elem_of_In, Htail in Hin. congruence.
Qed.

Lemma finish_cleans E resp st :
  cleans E st -> (finish E resp st).1 = Return resp.
Proof.
  unfold cleans, finish. destruct (temp_path st) as [p|]; [|done].
  intros [-> Hu]. case_bool_decide as Hp; [|done]. by rewrite (Hu Hp).
Qed.

(** The handler raises only what the cleanup raised. *)
Lemma finish_outcome E resp st :
  (finish E resp st).1 = Return resp \/
  exists p e, (finish E resp st).1 = Raised e /\ temp_path st = Some p /\
    (In (EExistsFailed p e) (trace (finish E resp st).2) \/
     In (EUnlinkFailed p e) (trace (finish E resp st).2)) /\
    ~ cleans E st.
Proof.
  unfold finish, cleans. destruct (temp_path st) as [p|]; [|by left].
  destruct (stat_fails E p st) as [e|] eqn:Hs.
  { right. exists p, e. split; [reflexivity|]. split; [reflexivity|]. split.
    - left. cbn. apply in_app_iff. right. by left.
    - intros [H _]. discriminate H. }
  case_bool_decide as Hp; [|left; reflexivity].
  destruct (unlink_fails E p st) as [e|] eqn:Hu; [|left; reflexivity].
  right. exists p, e. split; [reflexivity|]. split; [reflexivity|]. split.
  - right. cbn. apply in_app_iff. right. by left.
  - intros [_ H]. specialize (H Hp). discriminate H.
Qed.

Lemma finish_gone E resp resp' st p :
  (finish E resp st).1 = Return resp' -> temp_path st = Some p ->
  fs (finish E resp st).2 !! p = None.
Proof.
  unfold finish. intros H Hp. rewrite Hp in H |- *. revert H.
  destruct (stat_fails E p st) as [e|]; [intros H; discriminate H|].
  case_bool_decide as Hx.
  - destruct (unlink_fails E p st) as [e|]; [intros H; discriminate H|].
    intros _. apply lookup_delete_eq.
  - intros _. cbn. destruct (fs st !! p) eqn:Hl; [|done]. exfalso. eauto.
Qed.

Lemma finish_fs E resp resp' st :
  (finish E resp st).1 = Return resp' ->
  fs (finish E resp st).2 =
  match temp_path st with
  | Some p => delete p (fs st)
  | None => fs st
  end.
Proof.
  unfold finish. destruct (temp_path st) as [p|]; [|done].
  destruct (stat_fails E p st) as [e|]; [by cbn|].
  case_bool_decide as Hp.
  - by destruct (unlink_fails E p st) as [e|]; cbn.
  - intros _. cbn. symmetry. apply delete_id.
    destruct (fs st !! p) eqn:Hl; [|done]. exfalso. eauto.
Qed.

Lemma finish_unlinked E resp st p :
  In (EUnlink p) (trace (finish E resp st).2) ->
  In (EUnlink p) (trace st) \/
  (temp_path st = Some p /\ exists resp', (finish E resp st).1 = Return resp').
Proof.
  unfold finish. destruct (temp_path st) as [q|]; [|by left].
  destruct (stat_fails E q st) as [e|].
  { cbn. rewrite in_app_iff. intros [?|[?|[]]]; [by left|done]. }
  case_bool_decide; [|by left].
  destruct (unlink_fails E q st) as [e|]; cbn; rewrite in_app_iff;
    (intros [?|[Hq|[]]]; [by left|]); [done|]. injection Hq as ->. right. eauto.
Qed.

(** *** Step (1) *)

Ltac open_trace :=
  unfold closed, written, read_done, created, log, with_fs, start;
  cbn [trace fs temp_path app In fst snd].

Ltac in_cases H :=
  repeat match type of H with
         | _ \/ _ => destruct H as [H|H]
         | False => contradiction H
         end.

Lemma Stored_facts E input_file fs0 st temp :
  Stored E input_file fs0 st temp ->
  temp_path st = temp /\
  (forall ev, In ev (trace st) -> is_file_event ev = true /\ raised_by E ev = None) /\
  match input_file with
  | None => temp = None /\ trace st = []
  | Some f =>
      exists rng,
        temp = Some (temp_name E rng (suffix_of f)) /\
        fs st !! temp_name E rng (suffix_of f) = Some (file f) /\
        In (ENamedTemporaryFile (suffix_of f) (inr (temp_name E rng (suffix_of f)))) (trace st) /\
        forall s x, In (ENamedTemporaryFile s x) (trace st) ->
                    s = suffix_of f /\ x = inr (temp_name E rng (suffix_of f))
  end.
Proof.
  destruct 1 as [|f fs0 rng _ _ _ _]; [by split_and!|].
  split_and!; [done| |].
  - open_trace. intros ev Hin. in_cases Hin; by subst ev.
  - exists rng. split_and!; [done| | |].
    + open_trace. apply lookup_insert_eq.
    + open_trace. by left.
    + open_trace. intros s x Hin. in_cases Hin; try discriminate Hin.
      by injection Hin as <- <-.
Qed.


Lemma UploadFailed_events E f fs0 e st :
  UploadFailed E f fs0 e st ->
  (forall ev, In ev (trace st) -> is_file_event ev = true) /\
  (exists ev, In ev (trace st) /\ is_file_event ev = true /\ raised_by E ev = Some e) /\
  (forall a b, ~ In (ERun a b) (trace st)).
Proof.
  destruct 1; split_and!.
  all: try (eexists; split_and!; [open_trace; eauto 10|reflexivity|reflexivity]).
  all: try (intros ev; open_trace; intros Hin; in_cases Hin; by subst ev).
  all: intros a b; open_trace; intros Hin; in_cases Hin; discriminate Hin.
Qed.

Lemma UploadFailed_temp E f fs0 e st :
  UploadFailed E f fs0 e st ->
  (exists x, In (ENamedTemporaryFile (suffix_of f) x) (trace st)) /\
  forall sfx x, In (ENamedTemporaryFile sfx x) (trace st) ->
    sfx = suffix_of f /\
    forall p, x = inr p -> temp_path st = Some p /\ exists rng, p = temp_name E rng (suffix_of f).
Proof.
  destruct 1; (split; [eexists; open_trace; eauto 10|]).
  all: intros sfx x; open_trace; intros Hin; in_cases Hin; try discriminate Hin;
       injection Hin as <- <-; (split; [done|]); intros p [= <-]; eauto.
Qed.

Lemma Invoked_facts E method device input_file fs0 a b st :
  Invoked E method device input_file fs0 a b st ->
  exists st0 temp fs1,
    Stored E input_file fs0 st0 temp /\ a = call device method temp /\
    process E a st0 = (b, fs1) /\
    st = log (ERun a b) (with_fs fs1 st0) /\ temp_path st = temp /\
    In (ERun a b) (trace st) /\
    (forall a' b', In (ERun a' b') (trace st) -> a' = a /\ b' = b) /\
    (forall ev, In ev (trace st) -> is_file_event ev = true ->
                In ev (trace st0) /\ raised_by E ev = None).
Proof.
  destruct 1 as [st0 temp b fs1 Hst Hp]. exists st0, temp, fs1.
  destruct (Stored_facts _ _ _ _ _ Hst) as (Htemp & Hev & _).
  split_and!; [done..| | |].
  - cbn. apply in_app_iff. right. by left.
  - cbn. intros a' b' [Hin|[[= <- <-]|[]]]%in_app_iff; [|done].
    by destruct (Hev _ Hin).
  - cbn. intros ev [Hin|[<-|[]]]%in_app_iff Hf; [|done]. split; [done|]. by apply Hev.
Qed.

(** *** Requests that reach the process, requests that do not *)

Lemma invoked_call E method device input_file fs0 a b st :
  Invoked E method device input_file fs0 a b st ->
  exists temp, a = call device method temp /\ temp_path st = temp /\
               (input_file = None <-> temp = None).
Proof.
  destruct 1 as [st0 temp b fs1 Hst Hp]. exists temp.
  destruct (Stored_facts _ _ _ _ _ Hst) as (Htemp & _ & Hi).
  split_and!; [done|done|].
  destruct input_file; [destruct Hi as (rng & -> & _)|destruct Hi as [-> _]]; done.
Qed.

Lemma invoked_response c E method device input_file fs0 a b st :
  Invoked E method device input_file fs0 a b st ->
  cleans E st ->
  response_of (handle c E method device input_file fs0) =
  Return (respond E (run_result E a b)).
Proof.
  intros Hi Hc. unfold response_of. rewrite (handle_invoked c _ _ _ _ _ _ _ _ Hi).
  by apply finish_cleans.
Qed.

Lemma invoked_calls c E method device input_file fs0 a b st ev :
  Invoked E method device input_file fs0 a b st ->
  is_cleanup_event ev = false ->
  In ev (calls_of (handle c E method device input_file fs0)) <-> In ev (trace st).
Proof.
  intros Hi Hev. unfold calls_of. rewrite (handle_invoked c _ _ _ _ _ _ _ _ Hi).
  by apply finish_in.
Qed.


Lemma failed_calls c E method device f fs0 e st ev :
  UploadFailed E f fs0 e st ->
  is_cleanup_event ev = false ->
  In ev (calls_of (handle c E method device (Some f) fs0)) <-> In ev (trace st).
Proof.
  intros Hf Hev. unfold calls_of. rewrite (handle_upload_failed c _ method device _ _ _ _ Hf).
  by apply finish_in.
Qed.

Lemma run_result_in_time E (a : RunArgs) t code outb errb out err :
  (t <= timeout a)%Q ->
  decode E outb = inr out -> decode E errb = inr err ->
  run_result E a (Exits t code outb errb) =
  inr {| returncode := code; stdout := out; stderr := err |}.
Proof. intros Ht%Qle_bool_iff Ho He. cbn. by rewrite Ht, Ho, He. Qed.

Lemma run_result_exceeds E (a : RunArgs) b :
  exceeds (timeout a) b -> run_result E a b = inl TimeoutExpired.
Proof.
  destruct b as [msg|t code out err|]; cbn; [done| |done].
  intros Ht. destruct (Qle_bool t (timeout a)) eqn:Hle; [|done].
  apply Qle_bool_iff in Hle. by apply Qlt_not_le in Ht.
Qed.

Lemma run_result_timeout E a1 a2 b :
  timeout a1 = timeout a2 -> run_result E a1 b = run_result E a2 b.
Proof. intros H. destruct b; cbn; by rewrite ?H. Qed.


Lemma handle_returns c E method device input_file fs0 :
  cleanup_safe E ->
  exists resp, response_of (handle c E method device input_file fs0) = Return resp.
Proof.
  intros [Hs Hu].
  assert (Hc : forall st, cleans E st).
  { intros st. unfold cleans. destruct (temp_path st); [|done]. split; [apply Hs|]. intros _. apply Hu. }
  unfold response_of.
  destruct (handle_cases c E method device input_file fs0)
    as [(f & e' & st & _ & _ & ->)|(a & b & st & _ & ->)];
    eexists; by apply finish_cleans.
Qed.

(** ** The properties of the handler *)

(** C1, as stated, fails: a process that exits with status zero within
    the timeout but writes bytes that are no text makes [subprocess.run]
    raise, and the answer is 500 with the codec's message, not 200. *)
Lemma exit_zero_counterexample :
  let E := demo_env 0 (fun _ => Exits 0 0 [Byte.xff] []) in
  (process E (call ttyACM0 get None) (start ∅)).1 = Exits 0 0 [Byte.xff] [] /\
  answer WebCopy E get ttyACM0 None ∅ =
    {| status := 500;
       body := Json [(lit "error",
                      PyStr (lit "'utf-8' codec can't decode byte 0xff in position 0: invalid start byte"))] |} /\
  status (answer WebCopy E get ttyACM0 None ∅) <> 200.
Proof. vm_compute. split_and!; [reflexivity | reflexivity | discriminate]. Qed.

(** C1, amended.  When the request reaches the external process, the
    process exits with status zero within the timeout and its output
    decodes as text, the handler returns a dict with exactly one key:
    [output] with the YAML decoding of the trimmed stdout when decoding
    succeeds, [output_raw] with the trimmed stdout when it raises; and the
    service answers 200 with that body when FastAPI can serialise it. *)
Theorem exit_zero_output c E method device input_file fs0 a t outb errb out err st :
  Invoked E method device input_file fs0 a (Exits t 0 outb errb) st ->
  (t <= inject_Z 30)%Q ->
  decode E outb = inr out ->
  decode E errb = inr err ->
  cleans E st ->
  exists content,
    response_of (handle c E method device input_file fs0) = Return (Dict content) /\
    match load_yaml E (strip out) with
    | inr v => content = [(lit "output", v)]
    | inl _ => content = [(lit "output_raw", PyStr (strip out))]
    end /\
    (keys content = [lit "output"] \/ keys content = [lit "output_raw"]) /\
    ~ (In (lit "output") (keys content) /\ In (lit "output_raw") (keys content)) /\
    (serialize_fails E content = None ->
     answer c E method device input_file fs0 = {| status := 200; body := Json content |}).
Proof.
  intros Hi Ht Ho He Hc.
  pose proof (invoked_response c _ _ _ _ _ _ _ _ Hi Hc) as Hresp.
  destruct (invoked_call _ _ _ _ _ _ _ _ Hi) as (temp & -> & _).
  rewrite (run_result_in_time E (call device method temp) t 0 outb errb out err Ht Ho He)
    in Hresp.
  unfold respond, on_exit in Hresp. cbn [returncode stdout negb Z.eqb] in Hresp.
  unfold answer. rewrite Hresp.
  destruct (load_yaml E (strip out)) as [e|v]; eexists; (split; [reflexivity|]);
    (split_and!; [reflexivity|cbn; auto| |intros Hs; unfold serve; by rewrite Hs]);
    intros [[H|[]] [H'|[]]]; discriminate.
Qed.

Lemma exit_zero_output_witness :
  answer WebCopy (demo_env 0 (exits_with 0 (lit " status: ok ") [])) get ttyACM0 None ∅ =
  {| status := 200;
     body := Json [(lit "output", PyDict [(PyStr (lit "status"), PyStr (lit "ok"))])] |}.
Proof.
  edestruct (exit_zero_output WebCopy (demo_env 0 (exits_with 0 (lit " status: ok ") []))
               get ttyACM0 None ∅)
    as (content & _ & Hc & _ & _ & Hs).
  - eapply invoked; [apply stored_nothing | reflexivity].
  - vm_compute. discriminate.
  - vm_compute. reflexivity.
  - vm_compute. reflexivity.
  - exact I.
  - vm_compute in Hc. subst content. apply Hs. reflexivity.
Defined.

(** C2, as stated, fails: a process that exits with a non-zero status,
    an empty stderr and a stdout that is no text is answered 500 with the
    codec's message, not with the fallback "mup1cc failed". *)
Lemma exit_nonzero_counterexample :
  let E := demo_env 0 (fun _ => Exits 0 1 [Byte.xff] []) in
  (process E (call ttyACM0 get None) (start ∅)).1 = Exits 0 1 [Byte.xff] [] /\
  decode E [] = inr [] /\
  answer WebCopy E get ttyACM0 None ∅ =
    {| status := 500;
       body := Json [(lit "error",
                      PyStr (lit "'utf-8' codec can't decode byte 0xff in position 0: invalid start byte"))] |} /\
  answer WebCopy E get ttyACM0 None ∅ <>
    {| status := 500; body := Json [(lit "error", PyStr (lit "mup1cc failed"))] |}.
Proof. vm_compute. split_and!; [reflexivity | reflexivity | reflexivity | discriminate]. Qed.

(** C2, amended.  When the request reaches the external process, the
    process exits with a non-zero status within the timeout and its
    output decodes as text, the handler answers 500 with [error] set to
    the trimmed stderr, or to "mup1cc failed" when the trimmed stderr is
    empty. *)
Theorem exit_nonzero_error c E method device input_file fs0 a t code outb errb out err st :
  Invoked E method device input_file fs0 a (Exits t code outb errb) st ->
  (t <= inject_Z 30)%Q ->
  code <> 0 ->
  decode E outb = inr out ->
  decode E errb = inr err ->
  cleans E st ->
  response_of (handle c E method device input_file fs0) =
    Return (JSONResponse 500
              [(lit "error",
                PyStr (if decide (strip err = []) then lit "mup1cc failed" else strip err))]) /\
  answer c E method device input_file fs0 =
    {| status := 500;
       body := Json [(lit "error",
                      PyStr (if decide (strip err = []) then lit "mup1cc failed"
                             else strip err))] |}.
Proof.
  intros Hi Ht Hcode Ho He Hc.
  pose proof (invoked_response c _ _ _ _ _ _ _ _ Hi Hc) as Hresp.
  destruct (invoked_call _ _ _ _ _ _ _ _ Hi) as (temp & -> & _).
  rewrite (run_result_in_time E (call device method temp) t code outb errb out err Ht Ho He)
    in Hresp.
  unfold respond, on_exit in Hresp. cbn [returncode stderr] in Hresp.
  destruct (Z.eqb_spec code 0) as [?|_]; [done|]. cbn [negb] in Hresp.
  unfold answer. rewrite Hresp. by destruct (strip err).
Qed.

Lemma exit_nonzero_error_witness :
  answer DockerCopy (demo_env 0 (exits_with 1 [] (lit "connection refused ")))
    (lit "fetch") (lit "termhub://10.0.0.2:4000") (Some conf_yaml) ∅ =
  {| status := 500; body := Json [(lit "error", PyStr (lit "connection refused"))] |}.
Proof.
  edestruct (exit_nonzero_error DockerCopy
               (demo_env 0 (exits_with 1 [] (lit "connection refused ")))
               (lit "fetch") (lit "termhub://10.0.0.2:4000") (Some conf_yaml) ∅)
    as [_ H].
  - eapply invoked; [by apply (stored_upload _ conf_yaml ∅ (fun _ => O)) | reflexivity].
  - vm_compute. discriminate.
  - discriminate.
  - vm_compute. reflexivity.
  - vm_compute. reflexivity.
  - split; [reflexivity|]. intros _. reflexivity.
  - rewrite H. vm_compute. reflexivity.
Defined.

(** C3 fails on the code: after a timeout, with an upload, an [unlink]
    that raises in the [finally] block replaces the 504; the exception
    leaves the handler, the service answers the plain-text 500, and the
    temporary file stays. *)
Lemma timeout_unlink_denied :
  let E := with_unlink_error (demo_env 0 (fun _ => Hangs)) denied in
  let r := handle WebCopy E get ttyACM0 (Some conf_yaml) ∅ in
  In (ERun (call ttyACM0 get (Some (lit "/tmp/tmpaaaaaaaa.yml"))) Hangs) (calls_of r) /\
  exceeds (inject_Z 30) Hangs /\
  response_of r = Raised denied /\
  answer WebCopy E get ttyACM0 (Some conf_yaml) ∅ = internal_error /\
  status (answer WebCopy E get ttyACM0 (Some conf_yaml) ∅) <> 504 /\
  final_fs r !! lit "/tmp/tmpaaaaaaaa.yml" = Some [].
Proof.
  vm_compute. split_and!; [do 4 right; by left|done|reflexivity|reflexivity|discriminate|reflexivity].
Qed.




(** C5. Whenever the handler returns, on whatever path (the theorem
    quantifies over every behaviour of the environment), every temporary
    file created for the request no longer exists; a request without an
    upload creates none; and the handler does return unless the cleanup
    itself raises. *)
Theorem temp_file_removed c E method device input_file fs0 :
  (forall resp,
     response_of (handle c E method device input_file fs0) = Return resp ->
     forall s p,
       In (ENamedTemporaryFile s (inr p)) (calls_of (handle c E method device input_file fs0)) ->
       final_fs (handle c E method device input_file fs0) !! p = None) /\
  (input_file = None ->
   forall s x,
     ~ In (ENamedTemporaryFile s x) (calls_of (handle c E method device input_file fs0))) /\
  (cleanup_safe E ->
   exists resp, response_of (handle c E method device input_file fs0) = Return resp).
Proof.
  split_and!; [| |apply handle_returns].
  - unfold response_of, final_fs, calls_of.
    destruct (handle_cases c E method device input_file fs0)
      as [(f & e & st & _ & Hf & ->)|(a & b & st & Hi & ->)]; intros resp Hr s p Hin;
      apply finish_in in Hin; [|done| |done]; eapply finish_gone; [exact Hr| |exact Hr|].
    + destruct (UploadFailed_temp _ _ _ _ _ Hf) as [_ H].
      destruct (H _ _ Hin) as [_ Hp]. by destruct (Hp p eq_refl).
    + destruct (Invoked_facts _ _ _ _ _ _ _ _ Hi)
        as (st0 & temp & fs1 & Hst & _ & _ & -> & Htemp & _ & _ & Hfile).
      destruct (Hfile _ Hin eq_refl) as [Hin0 _].
      destruct (Stored_facts _ _ _ _ _ Hst) as (Ht0 & _ & Hi0).
      destruct input_file as [f|].
      * destruct Hi0 as (rng & -> & _ & _ & Huniq). destruct (Huniq _ _ Hin0) as [_ [= ->]].
        exact Ht0.
      * destruct Hi0 as [_ Hnil]. rewrite Hnil in Hin0. contradiction Hin0.
  - intros -> s x. unfold calls_of.
    destruct (handle_cases c E method device None fs0)
      as [(f & e & st & [=] & _)|(a & b & st & Hi & ->)].
    intros Hin. apply finish_in in Hin; [|done].
    destruct (Invoked_facts _ _ _ _ _ _ _ _ Hi)
      as (st0 & temp & fs1 & Hst & _ & _ & -> & _ & _ & _ & Hfile).
    destruct (Hfile _ Hin eq_refl) as [Hin0 _].
    destruct (Stored_facts _ _ _ _ _ Hst) as (_ & _ & _ & Hnil).
    rewrite Hnil in Hin0. contradiction Hin0.
Qed.

Lemma temp_file_removed_witness :
  final_fs (handle WebCopy (demo_env 0 (exits_with 0 (lit "status: ok") []))
              get ttyACM0 (Some conf_yaml) ∅) !! lit "/tmp/tmpaaaaaaaa.yml" = None.
Proof.
  eapply (proj1 (temp_file_removed WebCopy
                   (demo_env 0 (exits_with 0 (lit "status: ok") []))
                   get ttyACM0 (Some conf_yaml) ∅)) with (s := lit ".yml").
  - vm_compute. reflexivity.
  - vm_compute. left. reflexivity.
Defined.

(** C6. When the upload, if any, is stored, the external process is run
    with the command line [dr mup1cc -d <device> -m <method>], followed by
    [-i <temp file>] exactly when the request has an upload; device and
    method appear as given; no input is passed, output is captured as
    text under a timeout of 30.  No other command is ever run, and the
    response, unless the cleanup raises, is made of the call's result
    alone. *)
Theorem command_line c E method device input_file fs0 :
  (forall st0 temp,
     Stored E input_file fs0 st0 temp ->
     (input_file = None <-> temp = None) /\
     (forall p, temp = Some p ->
        exists s, In (ENamedTemporaryFile s (inr p))
                     (calls_of (handle c E method device input_file fs0))) /\
     exists b,
       In (ERun {| args := [lit "dr"; lit "mup1cc"; lit "-d"; device; lit "-m"; method]
                           ++ match temp with
                              | Some p => [lit "-i"; p]
                              | None => []
                              end;
                   capture_output := true; text := true;
                   timeout := inject_Z 30; input := None |} b)
          (calls_of (handle c E method device input_file fs0))) /\
  (forall a b,
     In (ERun a b) (calls_of (handle c E method device input_file fs0)) ->
     match input_file with
     | None => args a = [lit "dr"; lit "mup1cc"; lit "-d"; device; lit "-m"; method]
     | Some _ =>
         exists s p,
           In (ENamedTemporaryFile s (inr p))
              (calls_of (handle c E method device input_file fs0)) /\
           args a = [lit "dr"; lit "mup1cc"; lit "-d"; device; lit "-m"; method; lit "-i"; p]
     end /\
     input a = None /\ capture_output a = true /\ text a = true /\ timeout a = inject_Z 30 /\
     (response_of (handle c E method device input_file fs0) =
        Return (match run_result E a b with
                | inl e => on_error e
                | inr proc => on_exit E proc
                end) \/
      exists e, response_of (handle c E method device input_file fs0) = Raised e)).
Proof.
  split.
  - intros st0 temp Hst.
    destruct (process E (call device method temp) st0) as [b fs1] eqn:Hp.
    pose proof (invoked E method device input_file fs0 st0 temp b fs1 Hst Hp) as Hi.
    destruct (Stored_facts _ _ _ _ _ Hst) as (_ & _ & Hin).
    split_and!.
    + destruct input_file; [destruct Hin as (rng & -> & _)|destruct Hin as [-> _]]; done.
    + intros p ->. destruct input_file as [f|]; [|by destruct Hin].
      destruct Hin as (rng & [= ->] & _ & Hin & _). exists (suffix_of f).
      apply (invoked_calls c _ _ _ _ _ _ _ _ _ Hi); [done|].
      cbn. apply in_app_iff. by left.
    + exists b. apply (invoked_calls c _ _ _ _ _ _ _ _ _ Hi); [done|].
      cbn. apply in_app_iff. right. by left.
  - intros a b Hin. unfold calls_of, response_of in *.
    destruct (handle_cases c E method device input_file fs0)
      as [(f & e & st & _ & Hf & Hh)|(a' & b' & st & Hi & Hh)]; rewrite Hh in Hin |- *;
      apply finish_in in Hin; try done.
    { destruct (UploadFailed_events _ _ _ _ _ Hf) as (_ & _ & Hno). by apply Hno in Hin. }
    destruct (Invoked_facts _ _ _ _ _ _ _ _ Hi)
      as (st0 & temp & fs1 & Hst & Ha & _ & Hst' & _ & _ & Huniq & _).
    destruct (Huniq _ _ Hin) as [-> ->]. subst a'.
    destruct (Stored_facts _ _ _ _ _ Hst) as (_ & _ & Hi0).
    split_and!; [|done..|].
    + destruct input_file as [f|]; [|by destruct Hi0 as [-> _]].
      destruct Hi0 as (rng & -> & _ & Hin0 & _).
      exists (suffix_of f), (temp_name E rng (suffix_of f)). split; [|done].
      apply finish_in; [done|]. rewrite Hst'. cbn. apply in_app_iff. by left.
    + destruct (finish_outcome E (respond E (run_result E (call device method temp) b')) st)
        as [Hr|(p & e & Hr & _)]; [left; exact Hr | right; by exists e].
Qed.

Lemma command_line_witness :
  exists b,
    In (ERun {| args := [lit "dr"; lit "mup1cc"; lit "-d"; ttyACM0; lit "-m"; get]
                        ++ [lit "-i"; lit "/tmp/tmpaaaaaaaa.yml"];
                capture_output := true; text := true;
                timeout := inject_Z 30; input := None |} b)
       (calls_of (handle DockerCopy (demo_env 0 (exits_with 0 (lit "status: ok") []))
                    get ttyACM0 (Some conf_yaml) ∅)).
Proof.
  edestruct (proj1 (command_line DockerCopy (demo_env 0 (exits_with 0 (lit "status: ok") []))
                      get ttyACM0 (Some conf_yaml) ∅)) as (_ & _ & H).
  - by apply (stored_upload _ conf_yaml ∅ (fun _ => O)).
  - exact H.
Defined.

(** The suffix the handler computes is the extension of the filename,
    [.yaml] without one. *)
Lemma suffix_of_extension (f : UploadFile) : suffix_of f = extension_or_yaml f.
Proof.
  unfold suffix_of, extension_or_yaml.
  destruct (filename f) as [[|ch name]|]; [reflexivity| |reflexivity].
  change (str_or (default [] (Some (ch :: name))) (lit "input")) with (ch :: name).
  by destruct (path_suffix (ch :: name)).
Qed.

(** The calls of [NamedTemporaryFile] of a request with an upload. *)
Lemma upload_temp_events c E method device f fs0 :
  (exists x, In (ENamedTemporaryFile (suffix_of f) x)
               (calls_of (handle c E method device (Some f) fs0))) /\
  forall s x,
    In (ENamedTemporaryFile s x) (calls_of (handle c E method device (Some f) fs0)) ->
    s = suffix_of f /\ forall p, x = inr p -> exists rng, p = temp_name E rng (suffix_of f).
Proof.
  unfold calls_of.
  destruct (handle_cases c E method device (Some f) fs0)
    as [(f' & e & st & [= <-] & Hf & ->)|(a & b & st & Hi & ->)].
  - destruct (UploadFailed_temp _ _ _ _ _ Hf) as [[x Hx] Hall]. split.
    + exists x. by apply finish_in.
    + intros s x' Hin. apply finish_in in Hin; [|done].
      destruct (Hall _ _ Hin) as [-> Hp]. split; [done|]. intros p Hx'.
      by destruct (Hp p Hx') as [_ ?].
  - destruct (Invoked_facts _ _ _ _ _ _ _ _ Hi)
      as (st0 & temp & fs1 & Hst & _ & _ & Hst' & _ & _ & _ & Hfile).
    destruct (Stored_facts _ _ _ _ _ Hst) as (_ & _ & rng & _ & _ & Hin0 & Huniq). split.
    + eexists. apply finish_in; [done|]. rewrite Hst'. cbn. apply in_app_iff. left. exact Hin0.
    + intros s x Hin. apply finish_in in Hin; [|done].
      destruct (Hfile _ Hin eq_refl) as [Hin' _]. destruct (Huniq _ _ Hin') as [-> ->].
      split; [done|]. intros p [= <-]. by exists rng.
Qed.


(** C8, as stated, fails: the temporary file's name is drawn afresh for
    each request and is part of the command line, so a process that is a
    function of its command line may answer two equal requests
    differently. *)
Lemma determinism_counterexample :
  let E1 := demo_env 0 (fun a => echo_last (args a)) in
  let E2 := demo_env 1 (fun a => echo_last (args a)) in
  process_is E1 echo_last /\ process_is E2 echo_last /\
  (forall s, yaml_safe_load E1 s = yaml_safe_load E2 s) /\
  response_of (handle WebCopy E1 get ttyACM0 (Some conf_yaml) ∅) =
    Return (JSONResponse 500 [(lit "error", PyStr (lit "/tmp/tmpaaaaaaaa.yml"))]) /\
  response_of (handle WebCopy E2 get ttyACM0 (Some conf_yaml) ∅) =
    Return (JSONResponse 500 [(lit "error", PyStr (lit "/tmp/tmpbbbbbbbb.yml"))]) /\
  response_of (handle WebCopy E1 get ttyACM0 (Some conf_yaml) ∅) <>
  response_of (handle WebCopy E2 get ttyACM0 (Some conf_yaml) ∅).
Proof.
  split_and!; [done|done|done| | |]; vm_compute; [reflexivity|reflexivity|discriminate].
Qed.

(** Nor do two executions agree when the cleanup raises in one of them
    only: the exception replaces the response there. *)
Lemma cleanup_breaks_agreement :
  let E1 := demo_env 0 (exits_with 0 (lit "status: ok") []) in
  let E2 := with_unlink_error E1 denied in
  (forall a st, (process E1 a st).1 = (process E2 a st).1) /\
  response_of (handle WebCopy E1 get ttyACM0 (Some conf_yaml) ∅) =
    Return (Dict [(lit "output", PyDict [(PyStr (lit "status"), PyStr (lit "ok"))])]) /\
  response_of (handle WebCopy E2 get ttyACM0 (Some conf_yaml) ∅) = Raised denied.
Proof. split_and!; [done | vm_compute; reflexivity | vm_compute; reflexivity]. Qed.

Lemma called_behaviour c E method device input_file fs0 a b :
  In (ERun a b) (calls_of (handle c E method device input_file fs0)) ->
  exists st0 st,
    Invoked E method device input_file fs0 a b st /\ (process E a st0).1 = b /\
    handle c E method device input_file fs0 = finish E (respond E (run_result E a b)) st.
Proof.
  unfold calls_of.
  destruct (handle_cases c E method device input_file fs0)
    as [(f & e & st & _ & Hf & Hh)|(a' & b' & st & Hi & Hh)]; rewrite Hh;
    intros Hin; apply finish_in in Hin; try done.
  { destruct (UploadFailed_events _ _ _ _ _ Hf) as (_ & _ & Hno). by apply Hno in Hin. }
  destruct (Invoked_facts _ _ _ _ _ _ _ _ Hi)
    as (st0 & temp & fs1 & _ & _ & Hp & _ & _ & _ & Huniq & _).
  destruct (Huniq _ _ Hin) as [-> ->]. exists st0, st. split_and!; [done| |done]. by rewrite Hp.
Qed.

Lemma no_upload_called c E method device fs0 :
  exists b, In (ERun (call device method None) b) (calls_of (handle c E method device None fs0)).
Proof.
  destruct (process E (call device method None) (start fs0)) as [b fs1] eqn:Hp.
  exists b.
  apply (invoked_calls c _ _ _ _ _ _ _ _ _
           (invoked E method device None fs0 _ _ _ _ (stored_nothing E fs0) Hp)); [done|].
  cbn. by left.
Qed.

Lemma respond_ext E1 E2 (x : exn + CompletedProcess) :
  (forall s, yaml_safe_load E1 s = yaml_safe_load E2 s) -> respond E1 x = respond E2 x.
Proof.
  intros H. destruct x as [e|proc]; [done|]. unfold respond, on_exit, load_yaml.
  destruct (strip (stdout proc)); [done|]. by rewrite H.
Qed.

Lemma run_result_ext E1 E2 a b :
  (forall x, decode E1 x = decode E2 x) -> run_result E1 a b = run_result E2 a b.
Proof. intros H. destruct b; cbn; by rewrite ?H. Qed.

(** C8, amended.  Against a process that is a function of its command
    line, one text codec and one YAML decoder, two executions with the
    same method, device and upload give the same response when the
    request has no upload; with an upload they do whenever both reach the
    process call, the process answers their two command lines, which
    differ in the temporary file's name only, alike, and both handlers
    return. *)
Theorem same_response c g E1 E2 method device input_file fs1 fs2 :
  process_is E1 g -> process_is E2 g ->
  (forall s, yaml_safe_load E1 s = yaml_safe_load E2 s) ->
  (forall x, decode E1 x = decode E2 x) ->
  input_file = None \/
  (exists a1 b1 a2 b2,
     In (ERun a1 b1) (calls_of (handle c E1 method device input_file fs1)) /\
     In (ERun a2 b2) (calls_of (handle c E2 method device input_file fs2)) /\
     g (args a1) = g (args a2) /\
     (exists r1, response_of (handle c E1 method device input_file fs1) = Return r1) /\
     (exists r2, response_of (handle c E2 method device input_file fs2) = Return r2)) ->
  response_of (handle c E1 method device input_file fs1) =
  response_of (handle c E2 method device input_file fs2).
Proof.
  intros Hg1 Hg2 Hy Hd Hc.
  assert (exists a1 b1 a2 b2,
     In (ERun a1 b1) (calls_of (handle c E1 method device input_file fs1)) /\
     In (ERun a2 b2) (calls_of (handle c E2 method device input_file fs2)) /\
     g (args a1) = g (args a2) /\
     (exists r1, response_of (handle c E1 method device input_file fs1) = Return r1) /\
     (exists r2, response_of (handle c E2 method device input_file fs2) = Return r2))
    as (a1 & b1 & a2 & b2 & Hin1 & Hin2 & Hargs & [r1 Hr1] & [r2 Hr2]).
  { destruct Hc as [->|Hc]; [|exact Hc].
    destruct (no_upload_called c E1 method device fs1) as [b1 H1].
    destruct (no_upload_called c E2 method device fs2) as [b2 H2].
    exists (call device method None), b1, (call device method None), b2.
    split_and!; [done|done|done| |].
    - destruct (called_behaviour _ _ _ _ _ _ _ _ H1) as (_ & st & Hi & _ & Hh).
      unfold response_of. rewrite Hh. eexists. apply finish_cleans.
      destruct (invoked_call _ _ _ _ _ _ _ _ Hi) as (temp & _ & Ht & Hnone).
      unfold cleans. rewrite Ht. by rewrite (proj1 Hnone eq_refl).
    - destruct (called_behaviour _ _ _ _ _ _ _ _ H2) as (_ & st & Hi & _ & Hh).
      unfold response_of. rewrite Hh. eexists. apply finish_cleans.
      destruct (invoked_call _ _ _ _ _ _ _ _ Hi) as (temp & _ & Ht & Hnone).
      unfold cleans. rewrite Ht. by rewrite (proj1 Hnone eq_refl). }
  destruct (called_behaviour _ _ _ _ _ _ _ _ Hin1) as (st01 & st1 & Hi1 & Hb1 & Hh1).
  destruct (called_behaviour _ _ _ _ _ _ _ _ Hin2) as (st02 & st2 & Hi2 & Hb2 & Hh2).
  rewrite Hg1 in Hb1. rewrite Hg2 in Hb2.
  assert (Hto : timeout a1 = timeout a2).
  { destruct (invoked_call _ _ _ _ _ _ _ _ Hi1) as (? & -> & _).
    by destruct (invoked_call _ _ _ _ _ _ _ _ Hi2) as (? & -> & _). }
  rewrite Hr1, Hr2. unfold response_of in Hr1, Hr2. rewrite Hh1 in Hr1. rewrite Hh2 in Hr2.
  destruct (finish_outcome E1 (respond E1 (run_result E1 a1 b1)) st1)
    as [H1|(? & ? & H1 & _)]; rewrite H1 in Hr1; [|discriminate Hr1].
  destruct (finish_outcome E2 (respond E2 (run_result E2 a2 b2)) st2)
    as [H2|(? & ? & H2 & _)]; rewrite H2 in Hr2; [|discriminate Hr2].
  injection Hr1 as <-. injection Hr2 as <-. f_equal.
  rewrite <- Hb1, <- Hb2, Hargs, (run_result_timeout E1 a1 a2) by done.
  rewrite (run_result_ext E1 E2) by done. by apply respond_ext.
Qed.

Lemma same_response_witness :
  response_of (handle WebCopy (demo_env 0 (fun a => echo_last (args a))) get ttyACM0 None ∅) =
    response_of (handle WebCopy (demo_env 1 (fun a => echo_last (args a))) get ttyACM0 None
                   {[ lit "/tmp/x" := [] ]}) /\
  response_of (handle WebCopy (demo_env 0 (exits_with 0 (lit "status: ok") []))
                 get ttyACM0 (Some conf_yaml) ∅) =
    response_of (handle WebCopy (demo_env 1 (exits_with 0 (lit "status: ok") []))
                   get ttyACM0 (Some conf_yaml) ∅).
Proof.
  split.
  - apply (same_response WebCopy echo_last); [by intros a st..|done|done|by left].
  - apply (same_response WebCopy (fun _ => Exits 0 0 (ascii_bytes (lit "status: ok")) []));
      [by intros a st..|done|done|].
    right.
    exists (call ttyACM0 get (Some (lit "/tmp/tmpaaaaaaaa.yml"))),
           (Exits 0 0 (ascii_bytes (lit "status: ok")) []),
           (call ttyACM0 get (Some (lit "/tmp/tmpbbbbbbbb.yml"))),
           (Exits 0 0 (ascii_bytes (lit "status: ok")) []).
    split_and!; [vm_compute; do 4 right; by left|vm_compute; do 4 right; by left|done| |];
      eexists; vm_compute; reflexivity.
Defined.

(** C9. The two copies agree: on every input and from every state (so
    for every behaviour of the environment), the handler of web/main.py
    and the one of support/docker/main.py give the same result, response
    and final state alike. *)
Theorem copies_agree E method device input_file st :
  Web.run_mup1cc E method device input_file st =
  Docker.run_mup1cc E method device input_file st.
Proof. by rewrite web_steps, docker_steps. Qed.

(** C10, as stated, fails: a process that exits with status zero and an
    empty stdout, but a stderr that is no text, is answered 500 with the
    codec's message. *)
Lemma empty_stdout_counterexample :
  let E := demo_env 0 (fun _ => Exits 0 0 [] [Byte.xff]) in
  (process E (call ttyACM0 get None) (start ∅)).1 = Exits 0 0 [] [Byte.xff] /\
  decode E [] = inr [] /\ strip [] = [] /\
  answer WebCopy E get ttyACM0 None ∅ =
    {| status := 500;
       body := Json [(lit "error",
                      PyStr (lit "'utf-8' codec can't decode byte 0xff in position 0: invalid start byte"))] |} /\
  answer WebCopy E get ttyACM0 None ∅ <>
    {| status := 200; body := Json [(lit "output", PyNone)] |}.
Proof.
  vm_compute. split_and!; [reflexivity|reflexivity|reflexivity|reflexivity|discriminate].
Qed.

(** C10, amended.  When the request reaches the external process, the
    process exits with status zero within the timeout, its output decodes
    as text and its trimmed stdout is empty, the handler returns
    [{"output": None}] and the service answers 200 with [{"output": null}]:
    YAML decoding of the empty string gives null, not an error. *)
Theorem empty_stdout_null c E method device input_file fs0 a t outb errb out err st :
  Invoked E method device input_file fs0 a (Exits t 0 outb errb) st ->
  (t <= inject_Z 30)%Q ->
  decode E outb = inr out ->
  decode E errb = inr err ->
  strip out = [] ->
  cleans E st ->
  response_of (handle c E method device input_file fs0) =
    Return (Dict [(lit "output", PyNone)]) /\
  answer c E method device input_file fs0 =
    {| status := 200; body := Json [(lit "output", PyNone)] |}.
Proof.
  intros Hi Ht Ho He Hout Hc.
  pose proof (invoked_response c _ _ _ _ _ _ _ _ Hi Hc) as Hresp.
  destruct (invoked_call _ _ _ _ _ _ _ _ Hi) as (temp & -> & _).
  rewrite (run_result_in_time E (call device method temp) t 0 outb errb out err Ht Ho He)
    in Hresp.
  unfold respond, on_exit in Hresp. cbn [returncode stdout negb Z.eqb] in Hresp.
  rewrite Hout in Hresp. cbn [load_yaml] in Hresp.
  split; [exact Hresp|]. unfold answer. rewrite Hresp. reflexivity.
Qed.

Lemma empty_stdout_null_witness :
  answer DockerCopy (demo_env 0 (exits_with 0 (lit "  ") [])) get ttyACM0 None ∅ =
  {| status := 200; body := Json [(lit "output", PyNone)] |}.
Proof.
  edestruct (empty_stdout_null DockerCopy (demo_env 0 (exits_with 0 (lit "  ") []))
               get ttyACM0 None ∅) as [_ H].
  - eapply invoked; [apply stored_nothing | reflexivity].
  - vm_compute. discriminate.
  - vm_compute. reflexivity.
  - vm_compute. reflexivity.
  - reflexivity.
  - exact I.
  - exact H.
Defined.

(** ** Further properties of the handler *)

Lemma count_runs_none (l : list Event) :
  (forall ev, In ev l -> is_run ev = false) -> count_runs l = 0%nat.
Proof.
  unfold count_runs. induction l as [|ev l IH]; [done|]. intros H. cbn.
  rewrite (H ev) by (by left). apply IH. intros ev' Hin. apply H. by right.
Qed.

Lemma count_runs_app (l1 l2 : list Event) :
  count_runs (l1 ++ l2) = (count_runs l1 + count_runs l2)%nat.
Proof. unfold count_runs. by rewrite List.filter_app, length_app. Qed.

Lemma count_runs_finish E resp st :
  count_runs (trace (finish E resp st).2) = count_runs (trace st).
Proof.
  destruct (finish_trace E resp st) as (tail & -> & Htail).
  rewrite count_runs_app, (count_runs_none tail); [lia|].
  intros ev Hin. rewrite List.Forall_forall in Htail.
  assert (Hc : is_cleanup_event ev = true) by (by apply Htail).
  by destruct ev.
Qed.

Lemma count_runs_invoked E method device input_file fs0 a b st :
  Invoked E method device input_file fs0 a b st -> count_runs (trace st) = 1%nat.
Proof.
  intros Hi. destruct (Invoked_facts _ _ _ _ _ _ _ _ Hi)
    as (st0 & temp & fs1 & Hst & _ & _ & -> & _).
  destruct (Stored_facts _ _ _ _ _ Hst) as (_ & Hfile & _).
  cbn [log trace with_fs]. rewrite count_runs_app, count_runs_none; [done|].
  intros ev Hin. destruct (Hfile ev Hin) as [Hf _]. by destruct ev.
Qed.

Lemma count_runs_failed E f fs0 e st :
  UploadFailed E f fs0 e st -> count_runs (trace st) = 0%nat.
Proof.
  intros Hf. destruct (UploadFailed_events _ _ _ _ _ Hf) as (Hfile & _).
  apply count_runs_none. intros ev Hin. specialize (Hfile ev Hin). by destruct ev.
Qed.

(** X1. [subprocess.run] is called at most once per request (there is no
    retry on any path): exactly once when the upload, if any, is stored,
    so for every request without upload, and not at all when a step on
    the temporary file raises. *)
Theorem process_started_at_most_once c E method device input_file fs0 :
  (count_runs (calls_of (handle c E method device input_file fs0)) <= 1)%nat /\
  (input_file = None ->
   count_runs (calls_of (handle c E method device input_file fs0)) = 1%nat) /\
  (forall st0 temp, Stored E input_file fs0 st0 temp ->
   count_runs (calls_of (handle c E method device input_file fs0)) = 1%nat) /\
  (forall f e st, input_file = Some f -> UploadFailed E f fs0 e st ->
   count_runs (calls_of (handle c E method device input_file fs0)) = 0%nat).
Proof.
  assert (Hst : forall st0 temp, Stored E input_file fs0 st0 temp ->
            count_runs (calls_of (handle c E method device input_file fs0)) = 1%nat).
  { intros st0 temp Hst.
    destruct (process E (call device method temp) st0) as [b fs1] eqn:Hp.
    pose proof (invoked E method device input_file fs0 st0 temp b fs1 Hst Hp) as Hi.
    unfold calls_of. rewrite (handle_invoked c _ _ _ _ _ _ _ _ Hi), count_runs_finish.
    by apply count_runs_invoked in Hi. }
  split_and!; [| |exact Hst|].
  - unfold calls_of.
    destruct (handle_cases c E method device input_file fs0)
      as [(f & e & st & _ & Hf & ->)|(a & b & st & Hi & ->)]; rewrite count_runs_finish.
    + rewrite (count_runs_failed _ _ _ _ _ Hf). lia.
    + rewrite (count_runs_invoked _ _ _ _ _ _ _ _ Hi). lia.
  - intros ->. apply (Hst (start fs0) None). constructor.
  - intros f e st -> Hf. unfold calls_of.
    rewrite (handle_upload_failed c _ _ _ _ _ _ _ Hf), count_runs_finish.
    by apply count_runs_failed in Hf.
Qed.

Lemma respond_shape E (x : exn + CompletedProcess) :
  (exists k v, respond E x = Dict [(k, v)] /\ (k = lit "output" \/ k = lit "output_raw")) \/
  (exists code msg, respond E x = JSONResponse code [(lit "error", PyStr msg)] /\
                    (code = 500 \/ code = 504)).
Proof.
  destruct x as [[|msg]|proc]; cbn [respond on_error].
  1-2: right; do 2 eexists; split; [reflexivity|]; auto.
  unfold on_exit. destruct (negb (returncode proc =? 0)).
  - right. do 2 eexists. split; [reflexivity|]. auto.
  - left. destruct (load_yaml E (strip (stdout proc)));
      do 2 eexists; (split; [reflexivity|]); auto.
Qed.

(** X2. Every answer of the service is one of three: status 200 with a
    JSON object of the single key [output] or [output_raw]; status 500 or
    504 with a JSON object of the single key [error], bound to a string;
    or the plain-text 500 of an exception that left the handler or the
    serialisation. *)
Theorem response_shape c E method device input_file fs0 :
  answer c E method device input_file fs0 = internal_error \/
  exists k v,
    body (answer c E method device input_file fs0) = Json [(k, v)] /\
    ((status (answer c E method device input_file fs0) = 200 /\
      (k = lit "output" \/ k = lit "output_raw")) \/
     ((status (answer c E method device input_file fs0) = 500 \/
       status (answer c E method device input_file fs0) = 504) /\
      k = lit "error" /\ exists msg, v = PyStr msg)).
Proof.
  assert (Hs : forall resp,
            ((exists k v, resp = Dict [(k, v)] /\ (k = lit "output" \/ k = lit "output_raw")) \/
             (exists code msg, resp = JSONResponse code [(lit "error", PyStr msg)] /\
                               (code = 500 \/ code = 504))) ->
            serve E (Return resp) = internal_error \/
            exists k v,
              body (serve E (Return resp)) = Json [(k, v)] /\
              ((status (serve E (Return resp)) = 200 /\
                (k = lit "output" \/ k = lit "output_raw")) \/
               ((status (serve E (Return resp)) = 500 \/ status (serve E (Return resp)) = 504) /\
                k = lit "error" /\ exists msg, v = PyStr msg))).
  { intros resp [(k & v & -> & Hk)|(code & msg & -> & Hcode)]; cbn [serve].
    - destruct (serialize_fails E [(k, v)]); [by left|]. right. exists k, v. cbn. auto.
    - right. exists (lit "error"), (PyStr msg). cbn. split; [done|]. right. eauto. }
  unfold answer, response_of.
  destruct (handle_cases c E method device input_file fs0)
    as [(f & e & st & _ & _ & ->)|(a & b & st & _ & ->)].
  - destruct (finish_outcome E (on_error e) st) as [->|(? & ? & -> & _)]; [|by left].
    apply Hs, (respond_shape E (inl e)).
  - destruct (finish_outcome E (respond E (run_result E a b)) st) as [->|(? & ? & -> & _)];
      [|by left].
    apply Hs, respond_shape.
Qed.

(** X3. When a step on the temporary file fails (creating it, reading the
    upload, writing, closing), the external process is never started. *)
Theorem failed_upload_skips_process c E method device input_file fs0 ev e :
  In ev (calls_of (handle c E method device input_file fs0)) ->
  is_file_event ev = true ->
  raised_by E ev = Some e ->
  count_runs (calls_of (handle c E method device input_file fs0)) = 0%nat /\
  forall a b, ~ In (ERun a b) (calls_of (handle c E method device input_file fs0)).
Proof.
  intros Hin Hfile He. unfold calls_of in *.
  assert (Hev : is_cleanup_event ev = false) by (by destruct ev).
  destruct (handle_cases c E method device input_file fs0)
    as [(f & e' & st & _ & Hf & Hh)|(a & b & st & Hi & Hh)]; rewrite Hh in Hin |- *.
  - rewrite count_runs_finish. split; [by apply count_runs_failed in Hf|].
    intros a b Hrun. apply finish_in in Hrun; [|done].
    destruct (UploadFailed_events _ _ _ _ _ Hf) as (_ & _ & Hno). by apply Hno in Hrun.
  - apply finish_in in Hin; [|done].
    destruct (Invoked_facts _ _ _ _ _ _ _ _ Hi) as (? & ? & ? & _ & _ & _ & _ & _ & _ & _ & Hok).
    destruct (Hok ev Hin Hfile) as [_ Hnone]. rewrite Hnone in He. discriminate He.
Qed.

Lemma failed_upload_skips_process_witness :
  count_runs (calls_of (handle WebCopy disk_full get ttyACM0 (Some patch_yaml) ∅)) = 0%nat.
Proof.
  apply (failed_upload_skips_process WebCopy disk_full get ttyACM0 (Some patch_yaml) ∅
           (EWrite (lit "/tmp/tmpaaaaaaaa.yaml") (file patch_yaml)
                   (Some (Exception (lit "[Errno 28] No space left on device"))))
           (Exception (lit "[Errno 28] No space left on device"))).
  - vm_compute. do 2 right. left. reflexivity.
  - reflexivity.
  - reflexivity.
Defined.

(** X4. Status 200 is answered only when the external process was run
    and exited with status zero within the timeout, with an output that
    decodes as text: every other path answers another status. *)
Theorem ok_only_exit_zero c E method device input_file fs0 :
  status (answer c E method device input_file fs0) = 200 ->
  exists a t outb errb out err content,
    In (ERun a (Exits t 0 outb errb)) (calls_of (handle c E method device input_file fs0)) /\
    (t <= inject_Z 30)%Q /\
    decode E outb = inr out /\ decode E errb = inr err /\
    response_of (handle c E method device input_file fs0) = Return (Dict content) /\
    serialize_fails E content = None.
Proof.
  unfold answer, response_of, calls_of.
  destruct (handle_cases c E method device input_file fs0)
    as [(f & e & st & _ & Hf & ->)|(a & b & st & Hi & ->)].
  - destruct (finish_outcome E (on_error e) st) as [->|(? & ? & -> & _)]; [|done].
    by destruct e.
  - intros Hst.
    destruct (Invoked_facts _ _ _ _ _ _ _ _ Hi) as (? & temp & ? & _ & -> & _ & _ & _ & Hin & _).
    destruct (finish_outcome E (respond E (run_result E (call device method temp) b)) st)
      as [Hr|(? & ? & Hr & _)]; rewrite Hr in Hst |- *; [|done].
    destruct b as [msg|t code outb errb|]; cbn [run_result] in Hst |- *; [done| |done].
    change (timeout (call device method temp)) with (inject_Z 30) in *.
    destruct (Qle_bool t (inject_Z 30)) eqn:Ht; [|done].
    destruct (decode E outb) as [e1|out] eqn:Ho; [by destruct e1|].
    destruct (decode E errb) as [e2|err] eqn:He; [by destruct e2|].
    unfold respond, on_exit in Hst |- *. cbn [returncode stdout] in Hst |- *.
    destruct (Z.eqb_spec code 0) as [->|?]; [|done]. cbn [negb] in Hst |- *.
    exists (call device method temp), t, outb, errb, out, err.
    destruct (load_yaml E (strip out)) as [?|v]; cbn [serve] in Hst;
      eexists; (split_and!; [by apply finish_in|by apply Qle_bool_iff|done|done|reflexivity|]);
      by destruct (serialize_fails E _).
Qed.

Lemma ok_only_exit_zero_witness :
  exists a t outb errb,
    In (ERun a (Exits t 0 outb errb))
       (calls_of (handle WebCopy (demo_env 0 (exits_with 0 (lit "status: ok") []))
                    get ttyACM0 None ∅)) /\
    (t <= inject_Z 30)%Q.
Proof.
  destruct (ok_only_exit_zero WebCopy (demo_env 0 (exits_with 0 (lit "status: ok") []))
              get ttyACM0 None ∅) as (a & t & outb & errb & _ & _ & _ & H1 & H2 & _).
  - vm_compute. reflexivity.
  - exists a, t, outb, errb. split; [exact H1 | exact H2].
Defined.

(** X5. With an upload, the external process is started only once the
    temporary file named after [-i] holds exactly the uploaded bytes. *)
Theorem process_sees_upload c E method device f fs0 a b :
  In (ERun a b) (calls_of (handle c E method device (Some f) fs0)) ->
  exists p st,
    args a = [lit "dr"; lit "mup1cc"; lit "-d"; device; lit "-m"; method; lit "-i"; p] /\
    fs st !! p = Some (file f) /\
    (process E a st).1 = b.
Proof.
  intros Hin. unfold calls_of in Hin.
  destruct (handle_cases c E method device (Some f) fs0)
    as [(f' & e & st & _ & Hf & Hh)|(a' & b' & st & Hi & Hh)]; rewrite Hh in Hin;
    apply finish_in in Hin; try done.
  { destruct (UploadFailed_events _ _ _ _ _ Hf) as (_ & _ & Hno). by apply Hno in Hin. }
  destruct (Invoked_facts _ _ _ _ _ _ _ _ Hi)
    as (st0 & temp & fs1 & Hst & Ha & Hp & _ & _ & _ & Huniq & _).
  destruct (Huniq _ _ Hin) as [-> ->].
  destruct (Stored_facts _ _ _ _ _ Hst) as (_ & _ & rng & -> & Hfs & _).
  exists (temp_name E rng (suffix_of f)), st0. split_and!; [by rewrite Ha|done|by rewrite Hp].
Qed.

Lemma process_sees_upload_witness :
  response_of (handle WebCopy cat_last get ttyACM0 (Some patch_yaml) ∅) =
    Return (Dict [(lit "output_raw", PyStr (lit "a: 1"))]) /\
  exists p st,
    args (call ttyACM0 get (Some (lit "/tmp/tmpaaaaaaaa.yaml"))) =
      [lit "dr"; lit "mup1cc"; lit "-d"; ttyACM0; lit "-m"; get; lit "-i"; p] /\
    fs st !! p = Some (file patch_yaml) /\
    (process cat_last (call ttyACM0 get (Some (lit "/tmp/tmpaaaaaaaa.yaml"))) st).1 =
      Exits 0 0 (ascii_bytes (lit "a: 1")) [].
Proof.
  split; [vm_compute; reflexivity|].
  apply (process_sees_upload WebCopy cat_last get ttyACM0 patch_yaml ∅).
  vm_compute. do 4 right. left. reflexivity.
Defined.

(** The files a stored upload leaves, and those a failed one leaves. *)
Lemma Stored_fs E input_file fs0 st temp :
  Stored E input_file fs0 st temp ->
  match temp with
  | Some p => (exists s rng, mkstemp E s (start fs0) = inr rng /\ p = temp_name E rng s) /\
              delete p (fs st) = delete p fs0
  | None => fs st = fs0
  end.
Proof.
  destruct 1 as [|f fs0 rng Hmk]; [done|]. split; [by eauto|].
  unfold closed, written, read_done, created, log, with_fs. cbn [fs].
  by rewrite !delete_insert_eq.
Qed.

Lemma UploadFailed_fs E f fs0 e st :
  UploadFailed E f fs0 e st ->
  match temp_path st with
  | Some p => (exists s rng, mkstemp E s (start fs0) = inr rng /\ p = temp_name E rng s) /\
              delete p (fs st) = delete p fs0 /\
              In (ENamedTemporaryFile (suffix_of f) (inr p)) (trace st)
  | None => fs st = fs0
  end.
Proof.
  destruct 1; unfold written, read_done, created, log, with_fs, start; cbn [fs temp_path trace];
    [done|..]; (split; [by eauto|]); rewrite ?delete_insert_eq; (split; [done|]);
    rewrite ?in_app_iff; cbn; auto.
Qed.

(** X6. The handler leaves the file system as it found it: when the
    external process changes no file, tempfile's name is fresh and the
    handler returns, the files after the request are those before it, on
    every path. *)
Theorem file_system_restored c E method device input_file fs0 resp :
  (forall a st, (process E a st).2 = fs st) ->
  (forall s rng, mkstemp E s (start fs0) = inr rng -> fs0 !! temp_name E rng s = None) ->
  response_of (handle c E method device input_file fs0) = Return resp ->
  final_fs (handle c E method device input_file fs0) = fs0.
Proof.
  intros Hneutral Hfresh. unfold final_fs, response_of.
  destruct (handle_cases c E method device input_file fs0)
    as [(f & e & st & _ & Hf & ->)|(a & b & st & Hi & ->)]; intros Hr;
    rewrite (finish_fs _ _ _ _ Hr).
  - pose proof (UploadFailed_fs _ _ _ _ _ Hf) as Hfs.
    destruct (temp_path st) as [p|]; [|done].
    destruct Hfs as ((s & rng & Hmk & ->) & -> & _). apply delete_id. by apply Hfresh.
  - destruct (Invoked_facts _ _ _ _ _ _ _ _ Hi)
      as (st0 & temp & fs1 & Hst & _ & Hp & -> & _).
    pose proof (Hneutral a st0) as Hn. rewrite Hp in Hn. cbn [snd] in Hn. subst fs1.
    pose proof (Stored_facts _ _ _ _ _ Hst) as [Ht _].
    pose proof (Stored_fs _ _ _ _ _ Hst) as Hfs.
    cbn [log with_fs temp_path fs]. rewrite Ht.
    destruct temp as [p|]; [|done].
    destruct Hfs as ((s & rng & Hmk & ->) & ->). apply delete_id. by apply Hfresh.
Qed.

Lemma file_system_restored_witness :
  final_fs (handle WebCopy (demo_env 0 (exits_with 1 [] (lit "no device")))
              get ttyACM0 (Some conf_yaml) {[ lit "/tmp/keep" := [] ]}) =
  {[ lit "/tmp/keep" := [] ]}.
Proof.
  eapply file_system_restored.
  - intros a st. reflexivity.
  - intros s rng [= <-]. apply lookup_singleton_ne. intros Heq. vm_compute in Heq.
    discriminate Heq.
  - vm_compute. reflexivity.
Defined.

(** X7. The handler unlinks nothing but the temporary file it created in
    the same request, which is then gone. *)
Theorem unlinks_only_its_temp_file c E method device input_file fs0 p :
  In (EUnlink p) (calls_of (handle c E method device input_file fs0)) ->
  (exists s, In (ENamedTemporaryFile s (inr p))
               (calls_of (handle c E method device input_file fs0))) /\
  final_fs (handle c E method device input_file fs0) !! p = None.
Proof.
  unfold calls_of, final_fs.
  destruct (handle_cases c E method device input_file fs0)
    as [(f & e & st & _ & Hf & ->)|(a & b & st & Hi & ->)]; intros Hin;
    apply finish_unlinked in Hin as [Hin|(Hp & resp' & Hr)].
  - destruct (UploadFailed_events _ _ _ _ _ Hf) as (Hfile & _). by apply Hfile in Hin.
  - split; [|by eapply finish_gone].
    pose proof (UploadFailed_fs _ _ _ _ _ Hf) as Hfs. rewrite Hp in Hfs.
    destruct Hfs as (_ & _ & Hc). exists (suffix_of f). by apply finish_in.
  - destruct (Invoked_facts _ _ _ _ _ _ _ _ Hi)
      as (st0 & temp & fs1 & Hst & _ & _ & -> & _).
    destruct (Stored_facts _ _ _ _ _ Hst) as (_ & Hfile & _).
    cbn [log with_fs trace] in Hin. apply in_app_iff in Hin as [Hin|[Hin|[]]]; [|done].
    by destruct (Hfile _ Hin).
  - split; [|by eapply finish_gone].
    destruct (Invoked_facts _ _ _ _ _ _ _ _ Hi)
      as (st0 & temp & fs1 & Hst & _ & _ & Hst' & Ht & _).
    rewrite Hp in Ht. subst temp.
    destruct (Stored_facts _ _ _ _ _ Hst) as (_ & _ & Hin0).
    destruct input_file as [f|]; [|by destruct Hin0].
    destruct Hin0 as (rng & [= ->] & _ & Hin0 & _). exists (suffix_of f).
    apply finish_in; [done|]. rewrite Hst'. cbn [log with_fs trace]. apply in_app_iff. by left.
Qed.

Lemma unlinks_only_its_temp_file_witness :
  final_fs (handle DockerCopy (demo_env 0 (fun _ => Hangs)) get ttyACM0 (Some conf_yaml) ∅)
    !! lit "/tmp/tmpaaaaaaaa.yml" = None.
Proof.
  apply (unlinks_only_its_temp_file DockerCopy (demo_env 0 (fun _ => Hangs)) get ttyACM0
           (Some conf_yaml) ∅ (lit "/tmp/tmpaaaaaaaa.yml")).
  vm_compute. do 5 right. left. reflexivity.
Defined.

Lemma lstrip_starts_clean (s : str) : starts_clean (lstrip s).
Proof.
  induction s as [|c s IH]; [done|]. cbn. by destruct (isspace c) eqn:Hc.
Qed.

Lemma lstrip_snoc (l : str) (c : char) :
  isspace c = false -> lstrip (l ++ [c]) = lstrip l ++ [c].
Proof.
  intros Hc. induction l as [|x l IH]; cbn; [by rewrite Hc|]. by destruct (isspace x).
Qed.

(** The trimmed text neither starts nor ends with whitespace. *)
Lemma strip_clean (s : str) : starts_clean (strip s) /\ ends_clean (strip s).
Proof.
  unfold strip, rstrip, ends_clean. split.
  - pose proof (lstrip_starts_clean s) as H. destruct (lstrip s) as [|c t]; [done|].
    cbn [rev]. cbn in H. rewrite lstrip_snoc by done. by rewrite rev_unit.
  - rewrite rev_involutive. apply lstrip_starts_clean.
Qed.

(** X8. When the request reaches the external process and the process
    exits in time with a non-zero status and an output that decodes as
    text, the [error] text of the 500 answer is never empty and carries
    no whitespace at either end; for a stderr that is empty or all
    whitespace it is the fallback "mup1cc failed". *)
Theorem error_text_trimmed c E method device input_file fs0 a t code outb errb out err st :
  Invoked E method device input_file fs0 a (Exits t code outb errb) st ->
  (t <= inject_Z 30)%Q ->
  code <> 0 ->
  decode E outb = inr out ->
  decode E errb = inr err ->
  cleans E st ->
  exists msg,
    answer c E method device input_file fs0 =
      {| status := 500; body := Json [(lit "error", PyStr msg)] |} /\
    msg <> [] /\ starts_clean msg /\ ends_clean msg /\
    (Forall (fun ch => isspace ch = true) err -> msg = lit "mup1cc failed") /\
    (strip err <> [] -> msg = strip err).
Proof.
  intros Hi Ht Hcode Ho He Hc.
  pose proof (invoked_response c _ _ _ _ _ _ _ _ Hi Hc) as Hresp.
  destruct (invoked_call _ _ _ _ _ _ _ _ Hi) as (temp & -> & _).
  rewrite (run_result_in_time E (call device method temp) t code outb errb out err Ht Ho He)
    in Hresp.
  unfold respond, on_exit in Hresp. cbn [returncode stderr] in Hresp.
  destruct (Z.eqb_spec code 0) as [?|_]; [done|]. cbn [negb] in Hresp.
  eexists. split; [unfold answer; rewrite Hresp; reflexivity|].
  destruct (strip_clean err) as [Hs Hend]. pose proof (strip_nil_iff err) as Hnil.
  destruct (strip err) as [|ch s] eqn:Hst; cbn [str_or].
  - split_and!; [done|reflexivity|reflexivity|done|done].
  - split_and!; [done|done|done| |done]. intros Hall. apply Hnil in Hall. discriminate Hall.
Qed.

Lemma error_text_trimmed_witness :
  exists msg,
    answer WebCopy (demo_env 0 (exits_with 2 [] (lit " "))) get ttyACM0 None ∅ =
      {| status := 500; body := Json [(lit "error", PyStr msg)] |} /\
    msg = lit "mup1cc failed".
Proof.
  edestruct (error_text_trimmed WebCopy (demo_env 0 (exits_with 2 [] (lit " "))) get ttyACM0
               None ∅) as (msg & H1 & _ & _ & _ & H2 & _).
  - eapply invoked; [apply stored_nothing | reflexivity].
  - vm_compute. discriminate.
  - discriminate.
  - vm_compute. reflexivity.
  - vm_compute. reflexivity.
  - exact I.
  - exists msg. split; [exact H1|]. apply H2. repeat constructor.
Defined.

Lemma path_join_child (a b : str) :
  match b with c :: _ => c <> slash | [] => True end ->
  path_join a b = a ++ b \/ path_join a b = a ++ slash :: b.
Proof.
  unfold path_join. destruct b as [|c b]; intros Hb.
  - destruct a; [by left|]. destruct (_ =? _)%N; [by left | by right].
  - destruct (N.eqb_spec c slash); [done|].
    destruct a; [by left|]. destruct (_ =? _)%N; [by left | by right].
Qed.

(** The temporary files of a request: none without upload. *)
Lemma temp_events c E method device input_file fs0 s x :
  In (ENamedTemporaryFile s x) (calls_of (handle c E method device input_file fs0)) ->
  exists f, input_file = Some f /\ s = suffix_of f /\
            forall p, x = inr p -> exists rng, p = temp_name E rng (suffix_of f).
Proof.
  destruct input_file as [f|].
  - intros Hin. destruct (upload_temp_events c E method device f fs0) as [_ Hall].
    destruct (Hall _ _ Hin) as [-> Hp]. by exists f.
  - unfold calls_of.
    destruct (handle_cases c E method device None fs0)
      as [(f & e & st & [=] & _)|(a & b & st & Hi & ->)].
    intros Hin. apply finish_in in Hin; [|done].
    destruct (Invoked_facts _ _ _ _ _ _ _ _ Hi)
      as (st0 & temp & fs1 & Hst & _ & _ & _ & _ & _ & _ & Hfile).
    destruct (Hfile _ Hin eq_refl) as [Hin0 _].
    destruct (Stored_facts _ _ _ _ _ Hst) as (_ & _ & _ & Hnil). rewrite Hnil in Hin0.
    contradiction Hin0.
Qed.

(** X9. Whatever the upload's filename, the temporary file is a direct
    child of the temporary directory: its path is the directory followed
    by one component ["tmp" + 8 characters + extension] without any slash,
    and only the last extension of the filename is kept. *)
Theorem temp_file_in_tempdir c E method device input_file fs0 s p :
  In (ENamedTemporaryFile s (inr p)) (calls_of (handle c E method device input_file fs0)) ->
  exists rnd,
    length rnd = 8%nat /\
    (p = tempdir E ++ lit "tmp" ++ rnd ++ s \/
     p = tempdir E ++ slash :: lit "tmp" ++ rnd ++ s) /\
    (slash ∉ lit "tmp" ++ rnd ++ s) /\
    path_name p = lit "tmp" ++ rnd ++ s /\
    is_extension s.
Proof.
  intros Hin.
  destruct (temp_events _ _ _ _ _ _ _ _ Hin) as (f & _ & -> & Hp).
  destruct (Hp p eq_refl) as [rng ->].
  pose proof (suffix_of_is_extension f) as Hext.
  assert (Hfree : slash ∉ lit "tmp" ++ random_name rng ++ suffix_of f).
  { destruct Hext as (ext & -> & _ & _ & Hs).
    rewrite !elem_of_app, elem_of_cons.
    intros [H|[H|[H|H]]]; [|by apply random_name_free in H|done..].
    revert H. unfold lit. cbn. rewrite !elem_of_cons. intros [H|[H|[H|H]]]; [done..|].
    by apply not_elem_of_nil in H. }
  exists (random_name rng). split_and!; [| |done| |done].
  - unfold random_name. by rewrite length_map, length_seq.
  - unfold temp_name. by apply path_join_child.
  - unfold temp_name. by apply path_name_join.
Qed.

Lemma temp_file_in_tempdir_witness :
  exists rnd,
    length rnd = 8%nat /\
    (lit "/tmp/tmpaaaaaaaa.sh" = lit "/tmp" ++ lit "tmp" ++ rnd ++ lit ".sh" \/
     lit "/tmp/tmpaaaaaaaa.sh" = lit "/tmp" ++ slash :: lit "tmp" ++ rnd ++ lit ".sh").
Proof.
  destruct (temp_file_in_tempdir WebCopy (demo_env 0 (exits_with 0 [] [])) get ttyACM0
              (Some traversal) ∅ (lit ".sh") (lit "/tmp/tmpaaaaaaaa.sh"))
    as (rnd & H1 & H2 & _).
  - vm_compute. left. reflexivity.
  - exists rnd. split; [exact H1 | exact H2].
Defined.

(** X10. An upload whose file name is a dot followed by dot-free text
    (".yml", ".env") has no extension for pathlib: a temporary file is
    asked for under the default suffix [.yaml], and under no other. *)
Theorem dotfile_gets_yaml c E method device f fs0 name rest :
  filename f = Some name ->
  path_name name = dot :: rest ->
  dot ∉ rest ->
  (exists x, In (ENamedTemporaryFile (lit ".yaml") x)
               (calls_of (handle c E method device (Some f) fs0))) /\
  forall s x,
    In (ENamedTemporaryFile s x) (calls_of (handle c E method device (Some f) fs0)) ->
    s = lit ".yaml".
Proof.
  intros Hname Hn Hrest.
  assert (Hs : suffix_of f = lit ".yaml").
  { rewrite suffix_of_extension. unfold extension_or_yaml. rewrite Hname.
    unfold path_suffix. rewrite Hn.
    pose proof (rfind_last dot [] rest Hrest) as Hr. cbn [app length] in Hr. by rewrite Hr. }
  destruct (upload_temp_events c E method device f fs0) as [Hex Hall].
  rewrite Hs in Hex, Hall. split; [exact Hex|].
  intros s x Hin. by destruct (Hall _ _ Hin).
Qed.

Lemma dotfile_gets_yaml_witness :
  exists x, In (ENamedTemporaryFile (lit ".yaml") x)
              (calls_of (handle WebCopy (demo_env 0 (exits_with 0 [] [])) get ttyACM0
                           (Some dotfile) ∅)).
Proof.
  apply (dotfile_gets_yaml WebCopy (demo_env 0 (exits_with 0 [] [])) get ttyACM0 dotfile ∅
           (lit "conf/.yml") (lit "yml") eq_refl eq_refl).
  unfold lit. cbn. rewrite !elem_of_cons. intros [H|[H|[H|H]]]; try discriminate H.
  by apply not_elem_of_nil in H.
Defined.

(** X11. When the request reaches the external process, the process does
    not complete within 30 seconds and the cleanup goes through, the
    answer is 504 with the error "mup1cc timeout". *)
Theorem timeout_504 c E method device input_file fs0 a b st :
  Invoked E method device input_file fs0 a b st ->
  exceeds (inject_Z 30) b ->
  cleans E st ->
  response_of (handle c E method device input_file fs0) =
    Return (JSONResponse 504 [(lit "error", PyStr (lit "mup1cc timeout"))]) /\
  answer c E method device input_file fs0 =
    {| status := 504; body := Json [(lit "error", PyStr (lit "mup1cc timeout"))] |}.
Proof.
  intros Hi Hb Hc.
  pose proof (invoked_response c _ _ _ _ _ _ _ _ Hi Hc) as Hresp.
  destruct (invoked_call _ _ _ _ _ _ _ _ Hi) as (temp & -> & _).
  rewrite run_result_exceeds in Hresp by exact Hb.
  split; [exact Hresp|]. unfold answer. by rewrite Hresp.
Qed.

Lemma timeout_504_witness :
  answer WebCopy (demo_env 0 (fun _ => Hangs)) get ttyACM0 (Some conf_yaml) ∅ =
  {| status := 504; body := Json [(lit "error", PyStr (lit "mup1cc timeout"))] |}.
Proof.
  edestruct (timeout_504 WebCopy (demo_env 0 (fun _ => Hangs)) get ttyACM0 (Some conf_yaml) ∅)
    as [_ H].
  - eapply invoked; [by apply (stored_upload _ conf_yaml ∅ (fun _ => O)) | reflexivity].
  - exact I.
  - split; reflexivity.
  - exact H.
Defined.

(** X12. When the process exits with status zero in time and its stdout
    decodes to a value that cannot be serialised as JSON (a NaN, say),
    the handler returns its dict, and the service answers with the
    plain-text 500, not with 200. *)
Theorem unserialisable_output_500 c E method device input_file fs0 a t outb errb out err v e st :
  Invoked E method device input_file fs0 a (Exits t 0 outb errb) st ->
  (t <= inject_Z 30)%Q ->
  decode E outb = inr out ->
  decode E errb = inr err ->
  load_yaml E (strip out) = inr v ->
  serialize_fails E [(lit "output", v)] = Some e ->
  cleans E st ->
  response_of (handle c E method device input_file fs0) = Return (Dict [(lit "output", v)]) /\
  answer c E method device input_file fs0 = internal_error.
Proof.
  intros Hi Ht Ho He Hv Hs Hc.
  pose proof (invoked_response c _ _ _ _ _ _ _ _ Hi Hc) as Hresp.
  destruct (invoked_call _ _ _ _ _ _ _ _ Hi) as (temp & -> & _).
  rewrite (run_result_in_time E (call device method temp) t 0 outb errb out err Ht Ho He)
    in Hresp.
  unfold respond, on_exit in Hresp. cbn [returncode stdout negb Z.eqb] in Hresp.
  rewrite Hv in Hresp. split; [exact Hresp|].
  unfold answer. rewrite Hresp. cbn [serve]. by rewrite Hs.
Qed.

Lemma unserialisable_output_500_witness :
  answer WebCopy (demo_env 0 (exits_with 0 (lit ".nan") [])) get ttyACM0 None ∅ =
  internal_error.
Proof.
  edestruct (unserialisable_output_500 WebCopy (demo_env 0 (exits_with 0 (lit ".nan") []))
               get ttyACM0 None ∅) as [_ H].
  - eapply invoked; [apply stored_nothing | reflexivity].
  - vm_compute. discriminate.
  - vm_compute. reflexivity.
  - vm_compute. reflexivity.
  - vm_compute. reflexivity.
  - vm_compute. reflexivity.
  - exact I.
  - exact H.
Defined.


